(** * PVNet: model components for photovoltaic yield forecasting

    A shallow embedding of the four source files of the repository:
    - [predict_pv_yield/models/loss.py]          (module [Loss])
    - [pvnet/models/baseline/last_value.py]      (module [LastValue])
    - [pvnet/models/conv3d/encoders.py]          (module [Encoders])
    - [scripts/checkpoint_to_huggingface.py]     (module [Script])

    Conventions.
    - Python [int] is [Z]; [range], negative indexing and [//] are written out.
    - Floating-point tensors of the loss are modelled by lists of real numbers:
      [math.exp], [math.log] are [exp], [ln] of the reals and rounding,
      overflow and underflow are not modelled. Properties that hinge on
      them (positivity, strict order and the exact sum of the weights, bounds
      on the losses) are not stated.
    - The layers of the tensor library are represented by the arguments they
      are constructed with; their forward pass is modelled on the shape of the
      tensor only. The class [EncoderNaiveEfficientNet], a wrapper of a
      network of a library that is not among the sources, is left out. *)

From Stdlib Require Import String Ascii.
From Stdlib Require Import Reals ZArith List Lia Lra Bool.
Import ListNotations.

#[local] Set Warnings "-register-all".

(* ===================================================================== *)
(** * Part I. Definitions                                                 *)
(* ===================================================================== *)

(** ** Python built-ins used by the sources *)
Module Py.

(** [range(0, n)]: empty when [n <= 0]. *)
Definition range (n : Z) : list Z := map Z.of_nat (seq 0 (Z.to_nat n)).

(** [l[i]] with Python's negative indices; [None] stands for IndexError. *)
Definition index {A : Type} (l : list A) (i : Z) : option A :=
  let len := Z.of_nat (length l) in
  if (0 <=? i)%Z then nth_error l (Z.to_nat i)
  else if (0 <=? len + i)%Z then nth_error l (Z.to_nat (len + i))
  else None.

End Py.

(** ** One-dimensional real tensors *)
Module Tensor.

Local Open Scope R_scope.

Definition tensor := list R.

(** [torch.sum] *)
Definition sum (t : tensor) : R := fold_right Rplus 0 t.

(** Element-wise binary operation on two 1-d tensors with torch's
    broadcasting rule: equal sizes, or one of the sizes is 1. *)
Fixpoint zip_with (f : R -> R -> R) (a b : tensor) : tensor :=
  match a, b with
  | x :: a', y :: b' => f x y :: zip_with f a' b'
  | _, _ => []
  end.

Definition broadcast2 (f : R -> R -> R) (a b : tensor) : option tensor :=
  if Nat.eqb (length a) (length b) then Some (zip_with f a b)
  else match a, b with
       | [x], _ => Some (map (f x) b)
       | _, [y] => Some (map (fun x => f x y) a)
       | _, _ => None
       end.

Definition sub := broadcast2 Rminus.
Definition mul := broadcast2 Rmult.

(** [t / s] for a 0-d tensor [s] *)
Definition div_scalar (t : tensor) (s : R) : tensor := map (fun x => x / s) t.

(** [t ** 2] *)
Definition square (t : tensor) : tensor := map (fun x => x ^ 2) t.

(** [torch.abs] *)
Definition abs (t : tensor) : tensor := map Rabs t.

(** The sum over [i < n] of [f i], used to state the reductions. *)
Definition sigma (n : nat) (f : nat -> R) : R := sum (map f (seq 0 n)).

End Tensor.

(** ** loss.py *)
Module Loss.

Local Open Scope R_scope.
Import Tensor.

Record WeightedLosses : Type := mkWeightedLosses {
  decay_rate : R;
  forecast_length : Z;
  weights : tensor
}.

(** [WeightedLosses.__init__]; defaults: [decay_rate=None],
    [forecast_length=6]. *)
Definition init (decay_rate : option R) (forecast_length : Z) : WeightedLosses :=
  let decay_rate :=
    match decay_rate with
    | None => ln 2
    | Some r => r
    end in
  let weights :=
    map (fun i => exp (- decay_rate * IZR i)) (Py.range forecast_length) in
  mkWeightedLosses decay_rate forecast_length
    (div_scalar weights (sum weights)).

(** [torch.sum(self.weights * (output - target) ** 2)] *)
Definition get_mse_exp (self : WeightedLosses) (output target : tensor)
  : option R :=
  match sub output target with
  | None => None
  | Some d =>
    match mul (weights self) (square d) with
    | None => None
    | Some p => Some (sum p)
    end
  end.

(** [torch.sum(self.weights * torch.abs(output - target))] *)
Definition get_mae_exp (self : WeightedLosses) (output target : tensor)
  : option R :=
  match sub output target with
  | None => None
  | Some d =>
    match mul (weights self) (abs d) with
    | None => None
    | Some p => Some (sum p)
    end
  end.

End Loss.

(** ** baseline/last_value.py *)
Module LastValue.

Local Open Scope Z_scope.

(** The exceptions [Model.forward] can end with. *)
Inductive error : Type :=
| KeyError
| IndexError
| RuntimeError.

(** Keys of a batch dictionary ([ocf_datapipes.utils.consts.BatchKey], an
    enumeration of which the model reads [gsp] only). *)
Inductive BatchKey : Type :=
| gsp
| satellite_actual
| nwp
| pv.

Section WithElements.

(** The type of the tensor entries; [forward] only moves them. *)
Context {A : Type}.

(** A tensor of shape (batch_size, seq_length, n_sites), batch first. *)
Definition tensor3 : Type := list (list (list A)).
(** A tensor of shape (batch_size, forecast_len). *)
Definition tensor2 : Type := list (list A).

(** The batch [x]: a dictionary from keys to tensors. *)
Definition batch : Type := BatchKey -> option tensor3.

(** The model object. [forecast_len] is set by the base class
    [pvnet.models.base_model.BaseModel], which is not among the sources, and
    is taken as given. *)
Record Model : Type := mkModel {
  forecast_len : Z
}.

(** [gsp_yield[:, i, j]]: entry [i] of the second and [j] of the third
    dimension of every batch element. The sizes are read off each batch
    element, so the indices are checked once per element. *)
Fixpoint select (t : tensor3) (i j : Z) : error + list A :=
  match t with
  | [] => inr []
  | m :: t' =>
    match Py.index m i with
    | None => inl IndexError
    | Some row =>
      match Py.index row j with
      | None => inl IndexError
      | Some v =>
        match select t' i j with
        | inl e => inl e
        | inr vs => inr (v :: vs)
        end
      end
    end
  end.

(** [y_hat.unsqueeze(1).repeat(1, k)]: every entry becomes a row of [k]
    copies; a negative number of repeats is an error of the tensor library. *)
Definition unsqueeze_repeat (y_hat : list A) (k : Z) : error + tensor2 :=
  if k <? 0 then inl RuntimeError
  else inr (map (fun v => repeat v (Z.to_nat k)) y_hat).

(** [Model.forward] *)
Definition forward (self : Model) (x : batch) : error + tensor2 :=
  match x gsp with
  | None => inl KeyError
  | Some gsp_yield =>
    match select gsp_yield (- forecast_len self - 1) 0 with
    | inl e => inl e
    | inr y_hat => unsqueeze_repeat y_hat (forecast_len self)
    end
  end.

(** [t] has the shape (b, s, n). *)
Definition has_shape3 (b s n : Z) (t : tensor3) : Prop :=
  Z.of_nat (length t) = b /\
  Forall (fun m => Z.of_nat (length m) = s /\
                   Forall (fun row => Z.of_nat (length row) = n) m) t.

(** [t] has the shape (b, k). *)
Definition has_shape2 (b k : Z) (t : tensor2) : Prop :=
  Z.of_nat (length t) = b /\ Forall (fun row => Z.of_nat (length row) = k) t.

(** Entry [(b, t)] of a 2-d and [(b, s, n)] of a 3-d tensor, [None] out of
    range. *)
Definition entry2 (t : tensor2) (b k : nat) : option A :=
  match nth_error t b with
  | None => None
  | Some row => nth_error row k
  end.

Definition entry3 (t : tensor3) (b s n : nat) : option A :=
  match nth_error t b with
  | None => None
  | Some m =>
    match nth_error m s with
    | None => None
    | Some row => nth_error row n
    end
  end.

End WithElements.

Arguments tensor3 A : clear implicits.
Arguments tensor2 A : clear implicits.
Arguments batch A : clear implicits.

End LastValue.

(** ** conv3d/encoders.py *)
Module Encoders.

Local Open Scope Z_scope.

(** The exceptions of the constructors and of the forward passes.
    [RuntimeError] is what the tensor library raises on a shape it cannot
    process. *)
Inductive error : Type :=
| ValueError
| RuntimeError.

Definition result (A : Type) : Type := (error + A)%type.

Definition bind {A B : Type} (r : result A) (f : A -> result B) : result B :=
  match r with
  | inl e => inl e
  | inr a => f a
  end.

#[local] Notation "x <- r ;; k" := (bind r (fun x => k))
  (at level 61, r at next level, right associativity).

(** The shape of a tensor, outermost dimension first. *)
Definition shape : Type := list Z.

Definition triple : Type := (Z * Z * Z)%type.

(** [image_size_pixels // (2 ** n)]. For [n < 0] Python evaluates [2 ** n]
    to the float [2^n] and the floor division to the float [a * 2^(-n)]; the
    value is kept, the distinction between [int] and [float] is not. *)
Definition floordiv_pow2 (a n : Z) : Z :=
  if 0 <=? n then a / 2 ^ n else a * 2 ^ (- n).

(** *** Layers

    A layer is represented by the arguments it is constructed with. *)
Inductive Layer : Type :=
| Conv3d (in_channels out_channels : Z) (kernel_size padding stride : triple)
| ReLU
| LeakyReLU
| Linear (in_features out_features : Z)
| Sequential (layers : list Layer)
| Residual (convs final_activation : Layer)
| CenterCrop (size : Z).

(** [ResidualConv3dBlock.__init__] (default [n_layers=2]); its [forward] is
    the [Residual] case of [forward] below. *)
Definition ResidualConv3dBlock (in_channels n_layers : Z) : Layer :=
  let conv_layers :=
    flat_map
      (fun i =>
         (if i =? 0 then [] else [ReLU])
         ++ [Conv3d in_channels in_channels (3, 3, 3) (1, 1, 1) (1, 1, 1)])
      (Py.range n_layers) in
  Residual (Sequential conv_layers) LeakyReLU.

(** *** Shapes through the layers of the tensor library *)

(** Size of one dimension after a convolution with kernel [k], padding [p]
    and stride [s]; the kernel must fit the padded input. *)
Definition conv_dim (x k p s : Z) : result Z :=
  if x + 2 * p <? k then inl RuntimeError
  else inr ((x + 2 * p - k) / s + 1).

(** A convolution over the dimensions (channels, depth, height, width). *)
Definition conv3d_shape (cin cout : Z) (k p s : triple) (c d h w : Z)
  : result shape :=
  let '(kd, kh, kw) := k in
  let '(pd, ph, pw) := p in
  let '(sd, sh, sw) := s in
  if c =? cin then
    d' <- conv_dim d kd pd sd ;;
    h' <- conv_dim h kh ph sh ;;
    w' <- conv_dim w kw pw sw ;;
    inr [cout; d'; h'; w']
  else inl RuntimeError.

(** The shape of [a + b] under broadcasting, on reversed shapes. *)
Fixpoint broadcast_rev (a b : shape) : result shape :=
  match a, b with
  | [], _ => inr b
  | _, [] => inr a
  | x :: a', y :: b' =>
    r <- broadcast_rev a' b' ;;
    if x =? y then inr (x :: r)
    else if x =? 1 then inr (y :: r)
    else if y =? 1 then inr (x :: r)
    else inl RuntimeError
  end.

Definition broadcast_shapes (a b : shape) : result shape :=
  r <- broadcast_rev (rev a) (rev b) ;; inr (rev r).

Definition numel (s : shape) : Z := fold_right Z.mul 1 s.

(** The shape of [layer(x)] for an input of shape [x]. *)
Fixpoint forward (l : Layer) (x : shape) {struct l} : result shape :=
  match l with
  | Conv3d cin cout k p s =>
    match x with
    | [n; c; d; h; w] =>
      y <- conv3d_shape cin cout k p s c d h w ;; inr (n :: y)
    | [c; d; h; w] => conv3d_shape cin cout k p s c d h w
    | _ => inl RuntimeError
    end
  | ReLU => inr x
  | LeakyReLU => inr x
  | Linear fin fout =>
    match rev x with
    | last :: front =>
      if last =? fin then inr (rev (fout :: front)) else inl RuntimeError
    | [] => inl RuntimeError
    end
  | Sequential layers =>
    (fix run (ls : list Layer) (x : shape) : result shape :=
       match ls with
       | [] => inr x
       | l :: ls' => y <- forward l x ;; run ls' y
       end) layers x
  | Residual convs final_activation =>
    (* self.final_activation(self.convs(x)+x) *)
    y <- forward convs x ;;
    z <- broadcast_shapes y x ;;
    forward final_activation z
  | CenterCrop size =>
    (* crops, and pads where the input is smaller, the last two dimensions *)
    match rev x with
    | _ :: _ :: front => inr (rev (size :: size :: front))
    | _ => inl RuntimeError
    end
  end.

(** Whether [CenterCrop size] has to pad an input of shape [x]. *)
Definition crop_pads (size : Z) (x : shape) : bool :=
  match rev x with
  | w :: h :: _ => (w <? size) || (h <? size)
  | _ => false
  end.

(** [out.reshape(b, -1)] *)
Definition reshape_rows (b : Z) (x : shape) : result shape :=
  if b =? 0 then inl RuntimeError
  else if numel x mod b =? 0 then inr [b; numel x / b]
  else inl RuntimeError.

(** [torch.flatten(out, start_dim=1)] *)
Definition flatten1 (x : shape) : result shape :=
  match x with
  | n :: d :: rest => inr [n; numel (d :: rest)]
  | _ => inl RuntimeError
  end.

Fixpoint shape_eqb (a b : shape) : bool :=
  match a, b with
  | [], [] => true
  | x :: a', y :: b' => (x =? y) && shape_eqb a' b'
  | _, _ => false
  end.

(** [torch.cat(outputs, dim=1)]: the shapes agree outside dimension 1, whose
    sizes add up. *)
Fixpoint cat1 (outputs : list shape) : result shape :=
  match outputs with
  | [] => inl RuntimeError
  | x :: rest =>
    match rest with
    | [] =>
      match x with
      | _ :: _ :: _ => inr x
      | _ => inl RuntimeError
      end
    | _ :: _ =>
      y <- cat1 rest ;;
      match x, y with
      | n :: c :: tl, n' :: c' :: tl' =>
        if (n =? n') && shape_eqb tl tl' then inr (n :: (c + c') :: tl)
        else inl RuntimeError
      | _, _ => inl RuntimeError
      end
    end
  end.


(** *** [DefaultPVNet] *)

Record DefaultPVNet : Type := mkDefaultPVNet {
  conv_layers : Layer;
  fc1 : Layer;
  fc2 : Layer
}.

(** [DefaultPVNet.__init__]; defaults: [number_of_conv3d_layers=4],
    [conv3d_channels=32], [fc_features=128]. *)
Definition DefaultPVNet_init
  (sequence_length image_size_pixels in_channels out_features
   number_of_conv3d_layers conv3d_channels fc_features : Z)
  : result DefaultPVNet :=
  let cnn_spatial_output_size :=
    image_size_pixels - 2 * number_of_conv3d_layers in
  if negb (0 <? cnn_spatial_output_size) then inl ValueError
  else
    let conv_layers :=
      [Conv3d in_channels conv3d_channels (3, 3, 3) (1, 0, 0) (1, 1, 1);
       LeakyReLU]
      ++ flat_map
           (fun _ =>
              [Conv3d conv3d_channels conv3d_channels
                 (3, 3, 3) (1, 0, 0) (1, 1, 1);
               LeakyReLU])
           (Py.range (number_of_conv3d_layers - 1)) in
    let cnn_output_size :=
      conv3d_channels * cnn_spatial_output_size ^ 2 * sequence_length in
    inr (mkDefaultPVNet
           (Sequential conv_layers)
           (Linear cnn_output_size fc_features)
           (Linear fc_features out_features)).

(** [DefaultPVNet.forward] *)
Definition DefaultPVNet_forward (self : DefaultPVNet) (x : shape)
  : result shape :=
  out <- forward (conv_layers self) x ;;
  out <- match x with
         | [] => inl RuntimeError
         | b :: _ => reshape_rows b out
         end ;;
  out <- forward (fc1 self) out ;;
  out <- forward ReLU out ;;
  out <- forward (fc2 self) out ;;
  forward ReLU out.

(** *** [EncoderUNET] *)

Record EncoderUNET : Type := mkEncoderUNET {
  first_layer : Layer;
  downscale_layers : list Layer;
  crop_fn : Layer;
  cat_conv : Layer;
  final_conv : Layer;
  final_block : Layer
}.

(** One entry of [downscale_layers]. *)
Definition downscale_block (conv3d_channels : Z) : Layer :=
  Sequential
    [ResidualConv3dBlock conv3d_channels 3;
     Conv3d conv3d_channels conv3d_channels (1, 2, 2) (0, 0, 0) (1, 2, 2);
     LeakyReLU].

(** [EncoderUNET.__init__]; defaults: [n_downscale=4], [conv3d_channels=32],
    [fc_features=128]. *)
Definition EncoderUNET_init
  (sequence_length image_size_pixels in_channels out_features
   n_downscale conv3d_channels fc_features : Z)
  : result EncoderUNET :=
  let cnn_spatial_output := floordiv_pow2 image_size_pixels n_downscale in
  if negb (0 <? cnn_spatial_output) then inl ValueError
  else
    let first_layer :=
      Sequential
        [Conv3d in_channels conv3d_channels (1, 1, 1) (0, 0, 0) (1, 1, 1);
         LeakyReLU;
         ResidualConv3dBlock conv3d_channels 3] in
    let downscale_layers :=
      map (fun _ => downscale_block conv3d_channels)
        (Py.range n_downscale) in
    let crop_fn := CenterCrop (floordiv_pow2 image_size_pixels n_downscale) in
    let cat_channels := conv3d_channels * (1 + n_downscale) in
    let cat_conv :=
      Conv3d cat_channels conv3d_channels (1, 1, 1) (0, 0, 0) (1, 1, 1) in
    let final_conv := ResidualConv3dBlock conv3d_channels 3 in
    let final_channels :=
      (floordiv_pow2 image_size_pixels n_downscale) ^ 2
      * conv3d_channels * sequence_length in
    let final_block :=
      Sequential
        [Linear final_channels fc_features;
         LeakyReLU;
         Linear fc_features out_features] in
    inr (mkEncoderUNET first_layer downscale_layers crop_fn cat_conv
           final_conv final_block).

(** The loop of [EncoderUNET.forward]: [out] runs through the downscaling
    layers and every intermediate result is cropped and collected. *)
Fixpoint collect (crop_fn : Layer) (layers : list Layer)
  (out : shape) (outputs : list shape) : result (list shape) :=
  match layers with
  | [] => inr outputs
  | layer :: layers' =>
    out <- forward layer out ;;
    cropped <- forward crop_fn out ;;
    collect crop_fn layers' out (outputs ++ [cropped])
  end.

(** The feature maps [outputs] that [EncoderUNET.forward] hands to
    [torch.cat]. *)
Definition EncoderUNET_outputs (self : EncoderUNET) (x : shape)
  : result (list shape) :=
  out <- forward (first_layer self) x ;;
  cropped <- forward (crop_fn self) out ;;
  collect (crop_fn self) (downscale_layers self) out [cropped].

(** [EncoderUNET.forward] *)
Definition EncoderUNET_forward (self : EncoderUNET) (x : shape)
  : result shape :=
  outputs <- EncoderUNET_outputs self x ;;
  out <- cat1 outputs ;;
  out <- forward (cat_conv self) out ;;
  out <- forward (final_conv self) out ;;
  out <- flatten1 out ;;
  forward (final_block self) out.

(** The shapes on which [crop_fn] is called in [EncoderUNET.forward], in
    order: the results of the first layer and of every downscaling layer. *)
Fixpoint run_layers (layers : list Layer) (out : shape)
  : result (list shape) :=
  match layers with
  | [] => inr []
  | layer :: layers' =>
    out <- forward layer out ;;
    rest <- run_layers layers' out ;;
    inr (out :: rest)
  end.

Definition EncoderUNET_precrop (self : EncoderUNET) (x : shape)
  : result (list shape) :=
  out <- forward (first_layer self) x ;;
  rest <- run_layers (downscale_layers self) out ;;
  inr (out :: rest).

(** The shape the docstring of [AbstractNWPSatelliteEncoder] gives for the
    input: (batch_size, sequence_length, channels, height, width). *)
Definition documented_input
  (batch_size sequence_length channels height width : Z) : shape :=
  [batch_size; sequence_length; channels; height; width].

End Encoders.

(** ** scripts/checkpoint_to_huggingface.py *)
Module Script.

Local Open Scope string_scope.

(** The calls the script makes to the outside (wandb, the file system, the
    model library), in the order of the source. *)
Inductive event : Type :=
| WandbRuns (path : string)
| ParseConfig (path : string)
| Instantiate
| Glob (pattern : string)
| TorchLoad (path : string)
| LoadStateDict
| ConvertToMultimodal
| IsFile (path : string)
| TemporaryDirectory
| SavePretrained (model_output_dir : string)
    (wandb_model_code : option string) (push_to_hub : bool)
    (repo_id : option string)
| Cleanup.

(** The three [assert] statements of [push_to_huggingface]. *)
Inductive assertion : Type :=
| HubOrLocalPath       (* assert push_to_hub or local_path is not None *)
| OneCheckpointFile    (* assert len(files) == 1 *)
| DataConfigIsFile.    (* assert os.path.isfile(data_config) *)

Inductive error : Type :=
| AssertionError (a : assertion)
| Raised (by_call : event).

(** A computation appends the calls it makes to the trace and ends with an
    exception or a value. *)
Definition M (A : Type) : Type := list event -> list event * (error + A).

Definition ret {A : Type} (a : A) : M A := fun tr => (tr, inr a).

Definition bind {A B : Type} (m : M A) (f : A -> M B) : M B :=
  fun tr =>
    match m tr with
    | (tr', inl e) => (tr', inl e)
    | (tr', inr a) => f a tr'
    end.

#[local] Notation "x <- m ;; k" := (bind m (fun x => k))
  (at level 61, m at next level, right associativity).
#[local] Notation "m ;;; k" := (bind m (fun _ => k))
  (at level 61, right associativity).

Definition raise {A : Type} (e : error) : M A := fun tr => (tr, inl e).

Definition assert_ (b : bool) (a : assertion) : M unit :=
  if b then ret tt else raise (AssertionError a).

(** An outside call [ev] whose answer is [r], [None] when it raises. *)
Definition call {A : Type} (ev : event) (r : option A) : M A :=
  fun tr =>
    match r with
    | Some a => ((tr ++ [ev])%list, inr a)
    | None => ((tr ++ [ev])%list, inl (Raised ev))
    end.

(** [s.split("/")[-1]] *)
Fixpoint last_segment_from (acc s : string) : string :=
  match s with
  | EmptyString => acc
  | String c s' =>
    if Ascii.eqb c "/"%char then last_segment_from EmptyString s'
    else last_segment_from (acc ++ String c EmptyString) s'
  end.

Definition last_segment (s : string) : string :=
  last_segment_from EmptyString s.

(** The arguments of the [save_pretrained] calls of a trace: output
    directory, [wandb_model_code], [push_to_hub] and [repo_id]. *)
Definition saves (tr : list event)
  : list (string * option string * bool * option string) :=
  flat_map
    (fun ev =>
       match ev with
       | SavePretrained d c p r => [(d, c, p, r)]
       | _ => []
       end)
    tr.

(** The checkpoint files a trace loads with [torch.load]. *)
Definition loads (tr : list event) : list string :=
  flat_map
    (fun ev => match ev with TorchLoad path => [path] | _ => [] end) tr.

Definition is_wandb_lookup (ev : event) : bool :=
  match ev with WandbRuns _ => true | _ => false end.

Definition is_torch_load (ev : event) : bool :=
  match ev with TorchLoad _ => true | _ => false end.

Definition is_temporary_directory (ev : event) : bool :=
  match ev with TemporaryDirectory => true | _ => false end.

Definition is_cleanup (ev : event) : bool :=
  match ev with Cleanup => true | _ => false end.

(** Whether ["/"] occurs in [s]. *)
Fixpoint has_slash (s : string) : bool :=
  match s with
  | EmptyString => false
  | String c s' => Ascii.eqb c "/"%char || has_slash s'
  end.

(** A computation only appends to the trace and never raises the first
    assertion of [push_to_huggingface]. *)
Definition proceeds {A : Type} (m : M A) : Prop :=
  forall tr, exists more,
    fst (m tr) = (tr ++ more)%list /\
    snd (m tr) <> inl (AssertionError HubOrLocalPath).

(** A computation whose first call to the outside is [ev]. *)
Definition starts_with {A : Type} (ev : event) (m : M A) : Prop :=
  forall tr, exists more,
    fst (m tr) = (tr ++ ev :: more)%list /\
    snd (m tr) <> inl (AssertionError HubOrLocalPath).

Section WithWorld.

(** Model configurations, models, checkpoints and their state
    dictionaries are values of the libraries. *)
Context {Config Model Checkpoint StateDict : Type}.

(** What the outside answers to each call. *)
Record World : Type := mkWorld {
  wandb_run_ids : string -> option (list string);
  parse_config : string -> option Config;
  instantiate : Config -> option Model;
  glob : string -> list string;
  torch_load : string -> option Checkpoint;
  state_dict : Checkpoint -> option StateDict;
  load_state_dict : Model -> StateDict -> option Model;
  is_UMTModel : Model -> bool;
  convert_to_multimodal_model : Model -> Config -> option (Model * Config);
  isfile : string -> bool;
  temp_dir_name : string;
  save_pretrained :
    Model -> string -> Config -> string -> option string -> bool ->
    option string -> option unit;
  (* whether [tempfile.TemporaryDirectory()] and [temp_dir.cleanup()]
     return rather than raise *)
  temporary_directory_ok : bool;
  cleanup_ok : bool
}.

Variable w : World.

(** The body of [push_to_huggingface] after its first statement. *)
Definition push_body (checkpoint_dir_path : string) (val_best : bool)
  (wandb_id local_path : option string) (push_to_hub : bool) : M unit :=
  (* Check if checkpoint dir name is wandb run ID *)
  wandb_id <-
    match wandb_id with
    | None =>
      all_wandb_ids <-
        call (WandbRuns "openclimatefix/pvnet2.1")
             (wandb_run_ids w "openclimatefix/pvnet2.1") ;;
      let dirname := last_segment checkpoint_dir_path in
      ret (if existsb (String.eqb dirname) all_wandb_ids
           then Some dirname else None)
    | Some _ => ret wandb_id
    end ;;
  (* Load the model *)
  let config_path := checkpoint_dir_path ++ "/model_config.yaml" in
  model_config <- call (ParseConfig config_path) (parse_config w config_path) ;;
  model <- call Instantiate (instantiate w model_config) ;;
  checkpoint <-
    (if val_best then
       let pattern := checkpoint_dir_path ++ "/epoch*.ckpt" in
       files <- call (Glob pattern) (Some (glob w pattern)) ;;
       match files with
       | [file] => call (TorchLoad file) (torch_load w file)
       | _ => raise (AssertionError OneCheckpointFile)
       end
     else
       let path := checkpoint_dir_path ++ "/last.ckpt" in
       call (TorchLoad path) (torch_load w path)) ;;
  model <-
    call LoadStateDict
      (match state_dict w checkpoint with
       | Some sd => load_state_dict w model sd
       | None => None
       end) ;;
  mc <-
    (if is_UMTModel w model then
       call ConvertToMultimodal
            (convert_to_multimodal_model w model model_config)
     else ret (model, model_config)) ;;
  let '(model, model_config) := mc in
  (* Check for data config *)
  let data_config := checkpoint_dir_path ++ "/data_config.yaml" in
  present <- call (IsFile data_config) (Some (isfile w data_config)) ;;
  assert_ present DataConfigIsFile ;;;
  (* Push to hub *)
  model_output_dir <-
    match local_path with
    | None =>
      call TemporaryDirectory
           (if temporary_directory_ok w then Some (temp_dir_name w)
            else None)
    | Some p => ret p
    end ;;
  let repo_id := if push_to_hub then Some "openclimatefix/pvnet_v2" else None in
  call (SavePretrained model_output_dir wandb_id push_to_hub repo_id)
       (save_pretrained w model model_output_dir model_config data_config
          wandb_id push_to_hub repo_id) ;;;
  match local_path with
  | None => call Cleanup (if cleanup_ok w then Some tt else None)
  | Some _ => ret tt
  end.

(** [push_to_huggingface]; defaults: [val_best=True], [wandb_id=None],
    [local_path=None], [push_to_hub=True]. *)
Definition push_to_huggingface (checkpoint_dir_path : string)
  (val_best : bool) (wandb_id local_path : option string)
  (push_to_hub : bool) : M unit :=
  assert_ (push_to_hub ||
           match local_path with Some _ => true | None => false end)
          HubOrLocalPath ;;;
  (* os.path.dirname(os.path.abspath(__file__)): the value is dropped *)
  push_body checkpoint_dir_path val_best wandb_id local_path push_to_hub.

End WithWorld.

Arguments World Config Model Checkpoint StateDict : clear implicits.

End Script.

(* ===================================================================== *)
(** * Part II. Properties                                                 *)
(* ===================================================================== *)

(** ** Facts about the Python built-ins and 1-d tensors *)
Section TensorFacts.

Import Tensor.
Local Open Scope R_scope.

Lemma range_length (n : Z) : length (Py.range n) = Z.to_nat n.
Proof. unfold Py.range. now rewrite length_map, length_seq. Qed.

Lemma sigma_ext (n : nat) (f g : nat -> R) :
  (forall i, (i < n)%nat -> f i = g i) -> sigma n f = sigma n g.
Proof.
  intros E. unfold sigma. f_equal. apply map_ext_in.
  intros i Hi. apply in_seq in Hi. apply E. lia.
Qed.

Lemma sigma_S (n : nat) (f : nat -> R) :
  sigma (S n) f = f 0%nat + sigma n (fun i => f (S i)).
Proof.
  unfold sigma. cbn [seq map sum fold_right]. f_equal.
  now rewrite <- seq_shift, map_map.
Qed.

Lemma sum_nth (l : tensor) :
  sum l = sigma (length l) (fun i => nth i l 0).
Proof.
  induction l as [|x l IH]; [reflexivity|].
  cbn [length]. rewrite sigma_S. cbn [nth sum fold_right].
  f_equal. exact IH.
Qed.


Lemma sum_div_scalar (l : tensor) (s : R) :
  sum (div_scalar l s) = sum l / s.
Proof.
  induction l as [|x l IH]; cbn [div_scalar map sum fold_right].
  - unfold Rdiv. now rewrite Rmult_0_l.
  - fold (div_scalar l s). fold (sum (div_scalar l s)). rewrite IH.
    fold (sum l). unfold Rdiv. ring.
Qed.


Lemma zip_with_length (f : R -> R -> R) (a b : tensor) :
  length a = length b -> length (zip_with f a b) = length a.
Proof.
  revert b. induction a as [|x a IH]; intros [|y b] E; cbn in *; try congruence.
  f_equal. apply IH. congruence.
Qed.

Lemma nth_zip_with (f : R -> R -> R) (a b : tensor) (i : nat) (d da db : R) :
  (i < length a)%nat -> (i < length b)%nat ->
  nth i (zip_with f a b) d = f (nth i a da) (nth i b db).
Proof.
  revert b i. induction a as [|x a IH]; intros [|y b] i Ha Hb; cbn in *; try lia.
  destruct i as [|i]; [reflexivity|]. apply IH; lia.
Qed.

Lemma broadcast2_same_length (f : R -> R -> R) (a b : tensor) :
  length a = length b -> broadcast2 f a b = Some (zip_with f a b).
Proof.
  intros E. unfold broadcast2. now rewrite E, Nat.eqb_refl.
Qed.

End TensorFacts.

(** ** loss.py: the weights of [WeightedLosses] *)
Section LossFacts.

Import Tensor Loss.
Local Open Scope R_scope.


(** The list comprehension of line 20, indexed by [nat]. *)
Lemma raw_weights_seq (r : R) (n : Z) :
  map (fun i => exp (- r * IZR i)) (Py.range n)
  = map (fun j => exp (- r * INR j)) (seq 0 (Z.to_nat n)).
Proof.
  unfold Py.range. rewrite map_map. apply map_ext.
  intros j. now rewrite INR_IZR_INZ.
Qed.

Lemma weights_unfold (dr : option R) (n : Z) :
  let r := decay_rate (init dr n) in
  let raw := map (fun j => exp (- r * INR j)) (seq 0 (Z.to_nat n)) in
  weights (init dr n) = div_scalar raw (sum raw).
Proof.
  cbv zeta. rewrite <- raw_weights_seq. reflexivity.
Qed.

Lemma weights_length (dr : option R) (n : Z) :
  length (weights (init dr n)) = Z.to_nat n.
Proof.
  rewrite weights_unfold. unfold div_scalar.
  now rewrite !length_map, length_seq.
Qed.


End LossFacts.

(** ** loss.py: the two weighted reductions *)
Section ReductionFacts.

Import Tensor Loss.
Local Open Scope R_scope.

(** The reduction [sum (w * g (o - t))] shared by both losses, for tensors
    of one size. *)
Lemma weighted_sum_sigma (g : R -> R) (w o t : tensor) (n : nat) :
  length w = n -> length o = n -> length t = n ->
  sum (zip_with Rmult w (map g (zip_with Rminus o t)))
  = sigma n (fun i => nth i w 0 * g (nth i o 0 - nth i t 0)).
Proof.
  intros Hw Ho Ht.
  assert (Hd : length (map g (zip_with Rminus o t)) = n).
  { rewrite length_map, zip_with_length; congruence. }
  rewrite sum_nth, zip_with_length by congruence. rewrite Hw.
  apply sigma_ext. intros i Hi.
  rewrite (nth_zip_with Rmult _ _ i 0 0 (g 0)) by lia. f_equal.
  rewrite map_nth. f_equal.
  apply nth_zip_with; lia.
Qed.

Lemma get_mse_exp_same_size (self : WeightedLosses) (output target : tensor) :
  length output = length (weights self) ->
  length target = length (weights self) ->
  get_mse_exp self output target
  = Some (sum (zip_with Rmult (weights self)
                 (map (fun x => x ^ 2) (zip_with Rminus output target)))).
Proof.
  intros Ho Ht. unfold get_mse_exp, sub, mul, square.
  rewrite broadcast2_same_length by congruence.
  rewrite broadcast2_same_length; [reflexivity|].
  rewrite length_map, zip_with_length; congruence.
Qed.

Lemma get_mae_exp_same_size (self : WeightedLosses) (output target : tensor) :
  length output = length (weights self) ->
  length target = length (weights self) ->
  get_mae_exp self output target
  = Some (sum (zip_with Rmult (weights self)
                 (map Rabs (zip_with Rminus output target)))).
Proof.
  intros Ho Ht. unfold get_mae_exp, sub, mul, abs.
  rewrite broadcast2_same_length by congruence.
  rewrite broadcast2_same_length; [reflexivity|].
  rewrite length_map, zip_with_length; congruence.
Qed.

(** C2: on an output and a target of [forecast_length] entries,
    [get_mse_exp] is the sum over the horizons [i] of
    [weights[i] * (output[i] - target[i])^2] and [get_mae_exp] the sum of
    [weights[i] * |output[i] - target[i]|]. *)
Theorem C2_weighted_reductions
  (dr : option R) (n : Z) (output target : tensor) :
  Z.of_nat (length output) = n ->
  Z.of_nat (length target) = n ->
  let self := init dr n in
  forecast_length self = n /\
  get_mse_exp self output target
  = Some (sigma (Z.to_nat n)
            (fun i => nth i (weights self) 0
                      * (nth i output 0 - nth i target 0) ^ 2)) /\
  get_mae_exp self output target
  = Some (sigma (Z.to_nat n)
            (fun i => nth i (weights self) 0
                      * Rabs (nth i output 0 - nth i target 0))).
Proof.
  intros Ho Ht self.
  assert (Hw : length (weights self) = Z.to_nat n) by apply weights_length.
  split; [reflexivity|]. split.
  - rewrite get_mse_exp_same_size by lia. f_equal.
    apply (weighted_sum_sigma (fun x => x ^ 2)); lia.
  - rewrite get_mae_exp_same_size by lia. f_equal.
    apply (weighted_sum_sigma Rabs); lia.
Qed.

Lemma C2_weighted_reductions_witness :
  Z.of_nat (length [1; 2]) = 2%Z /\
  Z.of_nat (length [3; 5]) = 2%Z /\
  get_mse_exp (init None 2) [1; 2] [3; 5]
  = Some (sigma 2 (fun i => nth i (weights (init None 2)) 0
                            * (nth i [1; 2] 0 - nth i [3; 5] 0) ^ 2)).
Proof.
  split; [reflexivity|]. split; [reflexivity|].
  exact (proj1 (proj2 (C2_weighted_reductions None 2 [1; 2] [3; 5]
                         eq_refl eq_refl))).
Defined.

End ReductionFacts.

(** ** baseline/last_value.py: the persistence forecast *)
Section LastValueFacts.

Import LastValue.
Local Open Scope Z_scope.

Context {A : Type}.

Lemma index_negative {T : Type} (l : list T) (i : Z) :
  i < 0 -> 0 <= Z.of_nat (length l) + i ->
  Py.index l i = nth_error l (Z.to_nat (Z.of_nat (length l) + i)).
Proof.
  intros Hneg Hin. unfold Py.index.
  destruct (Z.leb_spec 0 i); [lia|].
  destruct (Z.leb_spec 0 (Z.of_nat (length l) + i)); [reflexivity | lia].
Qed.

Lemma index_zero {T : Type} (l : list T) :
  Py.index l 0 = nth_error l 0.
Proof. reflexivity. Qed.

Lemma nth_error_in_range {T : Type} (l : list T) (i : nat) :
  (i < length l)%nat -> exists v, nth_error l i = Some v.
Proof.
  intros Hi. destruct (nth_error l i) eqn:E; [eauto|].
  apply nth_error_None in E. lia.
Qed.

(** [gsp_yield[:, -k - 1, 0]] on a tensor whose batch elements have [s] rows
    of [n] sites takes entry [(b, s - k - 1, 0)] of every batch element. *)
Lemma select_last_observed (g : tensor3 A) (s n k : Z) :
  Forall (fun m => Z.of_nat (length m) = s /\
                   Forall (fun row => Z.of_nat (length row) = n) m) g ->
  0 <= k -> k + 1 <= s -> 1 <= n ->
  exists y_hat,
    select g (- k - 1) 0 = inr y_hat /\
    length y_hat = length g /\
    forall b, (b < length g)%nat ->
      exists v, nth_error y_hat b = Some v /\
                entry3 g b (Z.to_nat (s - k - 1)) 0 = Some v.
Proof.
  intros Hg Hk Hs Hn.
  induction Hg as [|m g [Hm Hrows] Hg IH].
  - exists []. repeat split. intros b Hb. cbn in Hb. lia.
  - destruct IH as (ys & Hsel & Hlen & Hent).
    destruct (nth_error_in_range m (Z.to_nat (s - k - 1)) ltac:(lia))
      as [row Hrow].
    assert (Hrowlen : Z.of_nat (length row) = n).
    { apply nth_error_In in Hrow.
      now apply (proj1 (Forall_forall _ _) Hrows). }
    destruct (nth_error_in_range row 0 ltac:(lia)) as [v Hv].
    exists (v :: ys). cbn [select].
    rewrite index_negative by lia.
    replace (Z.of_nat (length m) + (- k - 1)) with (s - k - 1) by lia.
    rewrite Hrow, index_zero, Hv, Hsel.
    split; [reflexivity|]. split; [cbn; congruence|].
    intros [|b] Hb.
    + exists v. unfold entry3. cbn [nth_error]. now rewrite Hrow.
    + cbn in Hb. destruct (Hent b ltac:(lia)) as (u & Hu & Hg3).
      exists u. split; assumption.
Qed.

(** C3: on a batch whose [gsp] tensor has the shape
    (batch_size, seq_length, n_sites) with [seq_length >= forecast_len + 1]
    and [n_sites >= 1] (and [forecast_len >= 0], as the shape of the result
    requires), [forward] returns a tensor of shape (batch_size, forecast_len)
    whose entry [(b, t)] is [gsp[b, seq_length - forecast_len - 1, 0]]; so
    every row is constant. *)
Theorem C3_forward_repeats_last_value
  (self : Model) (x : batch A) (gsp_yield : tensor3 A)
  (batch_size seq_length n_sites : Z) :
  x gsp = Some gsp_yield ->
  has_shape3 batch_size seq_length n_sites gsp_yield ->
  0 <= forecast_len self ->
  forecast_len self + 1 <= seq_length ->
  1 <= n_sites ->
  exists out,
    forward self x = inr out /\
    has_shape2 batch_size (forecast_len self) out /\
    (forall b t, Z.of_nat b < batch_size -> Z.of_nat t < forecast_len self ->
       exists v,
         entry2 out b t = Some v /\
         entry3 gsp_yield b
           (Z.to_nat (seq_length - forecast_len self - 1)) 0 = Some v) /\
    (forall b t t', Z.of_nat b < batch_size ->
       Z.of_nat t < forecast_len self -> Z.of_nat t' < forecast_len self ->
       entry2 out b t = entry2 out b t').
Proof.
  intros Hx [Hb Hg] Hk Hs Hn.
  destruct (select_last_observed gsp_yield seq_length n_sites
              (forecast_len self) Hg Hk Hs Hn) as (ys & Hsel & Hlen & Hent).
  set (k := forecast_len self) in *.
  exists (map (fun v => repeat v (Z.to_nat k)) ys).
  assert (Hentry : forall b t, Z.of_nat b < batch_size -> Z.of_nat t < k ->
            exists v,
              entry2 (map (fun v => repeat v (Z.to_nat k)) ys) b t = Some v /\
              entry3 gsp_yield b (Z.to_nat (seq_length - k - 1)) 0 = Some v).
  { intros b t Hbb Ht.
    destruct (Hent b ltac:(lia)) as (v & Hv & Hg3).
    exists v. split; [|exact Hg3].
    unfold entry2. rewrite nth_error_map, Hv. cbn [option_map].
    rewrite nth_error_repeat by lia. reflexivity. }
  split; [|split; [|split]].
  - unfold forward. rewrite Hx. fold k. rewrite Hsel.
    unfold unsqueeze_repeat.
    destruct (Z.ltb_spec k 0); [lia | reflexivity].
  - split; [rewrite length_map; lia|].
    apply Forall_forall. intros row Hrow. apply in_map_iff in Hrow.
    destruct Hrow as (v & <- & _). rewrite repeat_length. lia.
  - exact Hentry.
  - intros b t t' Hbb Ht Ht'.
    destruct (Hentry b t Hbb Ht) as (v & -> & Hv).
    destruct (Hentry b t' Hbb Ht') as (v' & -> & Hv').
    congruence.
Qed.

End LastValueFacts.

(** C3 on a batch of two elements with three time steps and two sites, for
    a horizon of two steps. *)
Lemma C3_forward_repeats_last_value_witness :
  let x : LastValue.batch nat :=
    fun k => match k with
             | LastValue.gsp =>
               Some [[[11; 12]; [21; 22]; [31; 32]];
                     [[41; 42]; [51; 52]; [61; 62]]]%nat
             | _ => None
             end in
  LastValue.forward (LastValue.mkModel 2) x = inr [[11; 11]; [41; 41]]%nat /\
  exists out,
    LastValue.forward (LastValue.mkModel 2) x = inr out /\
    LastValue.has_shape2 2 2 out.
Proof.
  cbv zeta. split; [reflexivity|].
  destruct (C3_forward_repeats_last_value (A := nat)
              (LastValue.mkModel 2)
              (fun k => match k with
                        | LastValue.gsp =>
                          Some [[[11; 12]; [21; 22]; [31; 32]];
                                [[41; 42]; [51; 52]; [61; 62]]]%nat
                        | _ => None
                        end)
              [[[11; 12]; [21; 22]; [31; 32]];
               [[41; 42]; [51; 52]; [61; 62]]]%nat
              2%Z 3%Z 2%Z eq_refl)
    as (out & Hf & Hs & _).
  - split; [reflexivity|].
    repeat constructor.
  - cbn. lia.
  - cbn. lia.
  - lia.
  - exists out. split; assumption.
Defined.

(** ** encoders.py: the guards of the constructors *)
Section ConstructorFacts.

Import Encoders.
Local Open Scope Z_scope.

Lemma pow2_pos (n : Z) : 0 <= n -> 0 < 2 ^ n.
Proof. intros Hn. apply Z.pow_pos_nonneg; lia. Qed.

(** Floor division by a positive number is positive exactly from the
    divisor on. *)
Lemma div_pos_iff (a b : Z) : 0 < b -> (0 < a / b <-> b <= a).
Proof.
  intros Hb. split.
  - intros Hq. destruct (Z.le_gt_cases b a) as [|Hlt]; [assumption|].
    assert (a / b <= 0); [|lia].
    destruct (Z.le_gt_cases 0 a).
    + rewrite Z.div_small; lia.
    + assert (a / b < 0) by (apply Z.div_lt_upper_bound; lia). lia.
  - intros Hle. apply Z.div_str_pos. lia.
Qed.



Lemma floordiv_pow2_nonneg_exp (a n : Z) :
  0 <= n -> floordiv_pow2 a n = a / 2 ^ n.
Proof.
  intros Hn. unfold floordiv_pow2.
  destruct (Z.leb_spec 0 n); [reflexivity | lia].
Qed.

(** C4: the constructor of [DefaultPVNet] raises a [ValueError] exactly when
    [image_size_pixels - 2 * number_of_conv3d_layers <= 0]; otherwise it
    returns the encoder. *)
Theorem C4_DefaultPVNet_init_guard
  (sequence_length image_size_pixels in_channels out_features
   number_of_conv3d_layers conv3d_channels fc_features : Z) :
  let r := DefaultPVNet_init sequence_length image_size_pixels in_channels
             out_features number_of_conv3d_layers conv3d_channels
             fc_features in
  (r = inl ValueError
   <-> image_size_pixels - 2 * number_of_conv3d_layers <= 0) /\
  (image_size_pixels - 2 * number_of_conv3d_layers > 0
   <-> exists encoder, r = inr encoder).
Proof.
  cbv zeta. unfold DefaultPVNet_init.
  destruct (Z.ltb_spec 0 (image_size_pixels - 2 * number_of_conv3d_layers))
    as [Hpos|Hneg]; cbn [negb].
  - split.
    + split; [discriminate | lia].
    + split; [eauto | lia].
  - split.
    + split; [lia | reflexivity].
    + split; [lia | intros [e He]; discriminate].
Qed.


End ConstructorFacts.

(** ** encoders.py: shapes through the forward passes *)
Section ForwardFacts.

Import Encoders.
Local Open Scope Z_scope.

(** Equality of two shapes, dimension by dimension. *)
Ltac shape_eq :=
  repeat match goal with
         | |- inr _ = inr _ => f_equal
         | |- _ :: _ = _ :: _ => apply f_equal2; [lia|]
         | |- [] = [] => reflexivity
         end.

Lemma forward_Sequential_nil (x : shape) :
  forward (Sequential []) x = inr x.
Proof. reflexivity. Qed.

Lemma forward_LeakyReLU (x : shape) : forward LeakyReLU x = inr x.
Proof. reflexivity. Qed.

Lemma forward_ReLU (x : shape) : forward ReLU x = inr x.
Proof. reflexivity. Qed.

Lemma forward_Residual (convs act : Layer) (x : shape) :
  forward (Residual convs act) x
  = bind (forward convs x)
      (fun y => bind (broadcast_shapes y x) (forward act)).
Proof. reflexivity. Qed.

Lemma forward_Sequential_cons (l : Layer) (ls : list Layer) (x : shape) :
  forward (Sequential (l :: ls)) x
  = bind (forward l x) (forward (Sequential ls)).
Proof. reflexivity. Qed.

Lemma forward_Sequential_app (ls1 ls2 : list Layer) (x : shape) :
  forward (Sequential (ls1 ++ ls2)) x
  = bind (forward (Sequential ls1) x) (forward (Sequential ls2)).
Proof.
  revert x. induction ls1 as [|l ls1 IH]; intros x; [reflexivity|].
  rewrite <- app_comm_cons, !forward_Sequential_cons.
  destruct (forward l x) as [e|y]; cbn [bind]; [reflexivity | apply IH].
Qed.

Lemma conv_dim_ok (x k p s : Z) :
  k <= x + 2 * p -> conv_dim x k p s = inr ((x + 2 * p - k) / s + 1).
Proof.
  intros H. unfold conv_dim.
  destruct (Z.ltb_spec (x + 2 * p) k); [lia | reflexivity].
Qed.

(** A convolution with kernel 3 and padding [(1, 0, 0)]: the depth stays,
    height and width lose 2. *)
Lemma forward_conv_valid (cin cout b d h w : Z) :
  1 <= d -> 3 <= h -> 3 <= w ->
  forward (Conv3d cin cout (3, 3, 3) (1, 0, 0) (1, 1, 1)) [b; cin; d; h; w]
  = inr [b; cout; d; h - 2; w - 2].
Proof.
  intros Hd Hh Hw. cbn [forward]. unfold conv3d_shape.
  rewrite Z.eqb_refl, !conv_dim_ok by lia. cbn [bind].
  rewrite !Z.div_1_r. shape_eq.
Qed.

(** A convolution with kernel 3 and padding 1 keeps the shape. *)
Lemma forward_conv_same (c b d h w : Z) :
  1 <= d -> 1 <= h -> 1 <= w ->
  forward (Conv3d c c (3, 3, 3) (1, 1, 1) (1, 1, 1)) [b; c; d; h; w]
  = inr [b; c; d; h; w].
Proof.
  intros Hd Hh Hw. cbn [forward]. unfold conv3d_shape.
  rewrite Z.eqb_refl, !conv_dim_ok by lia. cbn [bind].
  rewrite !Z.div_1_r. shape_eq.
Qed.

(** A convolution with kernel 1 changes the channels only. *)
Lemma forward_conv_pointwise (cin cout b d h w : Z) :
  1 <= d -> 1 <= h -> 1 <= w ->
  forward (Conv3d cin cout (1, 1, 1) (0, 0, 0) (1, 1, 1)) [b; cin; d; h; w]
  = inr [b; cout; d; h; w].
Proof.
  intros Hd Hh Hw. cbn [forward]. unfold conv3d_shape.
  rewrite Z.eqb_refl, !conv_dim_ok by lia. cbn [bind].
  rewrite !Z.div_1_r. shape_eq.
Qed.

(** The downscaling convolution halves height and width, rounding down. *)
Lemma forward_conv_downscale (c b d h w : Z) :
  1 <= d -> 2 <= h -> 2 <= w ->
  forward (Conv3d c c (1, 2, 2) (0, 0, 0) (1, 2, 2)) [b; c; d; h; w]
  = inr [b; c; d; h / 2; w / 2].
Proof.
  intros Hd Hh Hw. cbn [forward]. unfold conv3d_shape.
  rewrite Z.eqb_refl, !conv_dim_ok by lia. cbn [bind].
  rewrite Z.div_1_r.
  assert (E : forall v, (v + 2 * 0 - 2) / 2 + 1 = v / 2).
  { intros v. replace (v + 2 * 0 - 2) with (v + (-1) * 2) by lia.
    rewrite Z.div_add by lia. lia. }
  rewrite !E. shape_eq.
Qed.

(** The stride-1 layers that [DefaultPVNet] repeats. *)
Lemma forward_valid_stack (c b d : Z) (idx : list Z) (h : Z) :
  1 <= d -> 1 <= h - 2 * Z.of_nat (length idx) ->
  forward
    (Sequential
       (flat_map
          (fun _ => [Conv3d c c (3, 3, 3) (1, 0, 0) (1, 1, 1); LeakyReLU])
          idx))
    [b; c; d; h; h]
  = inr [b; c; d; h - 2 * Z.of_nat (length idx);
         h - 2 * Z.of_nat (length idx)].
Proof.
  intros Hd. revert h. induction idx as [|i idx IH]; intros h Hh.
  - cbn [flat_map length]. rewrite forward_Sequential_nil.
    cbn [Z.of_nat]. shape_eq.
  - cbn [length] in *. cbn [flat_map app].
    rewrite forward_Sequential_cons, forward_conv_valid by lia.
    cbn [bind]. rewrite forward_Sequential_cons, forward_LeakyReLU.
    cbn [bind]. rewrite IH by lia. shape_eq.
Qed.

Lemma broadcast_rev_same (a : shape) : broadcast_rev a a = inr a.
Proof.
  induction a as [|x a IH]; [reflexivity|].
  cbn [broadcast_rev]. rewrite IH. cbn [bind]. now rewrite Z.eqb_refl.
Qed.

Lemma broadcast_shapes_same (a : shape) : broadcast_shapes a a = inr a.
Proof.
  unfold broadcast_shapes. rewrite broadcast_rev_same. cbn [bind].
  now rewrite rev_involutive.
Qed.

(** The layers of [ResidualConv3dBlock(in_channels=c, n_layers=3)]. *)
Lemma ResidualConv3dBlock_3 (c : Z) :
  ResidualConv3dBlock c 3
  = Residual
      (Sequential
         [Conv3d c c (3, 3, 3) (1, 1, 1) (1, 1, 1); ReLU;
          Conv3d c c (3, 3, 3) (1, 1, 1) (1, 1, 1); ReLU;
          Conv3d c c (3, 3, 3) (1, 1, 1) (1, 1, 1)])
      LeakyReLU.
Proof. reflexivity. Qed.

(** [ResidualConv3dBlock(in_channels=c, n_layers=3)] keeps the shape. *)
Lemma forward_residual_block (c b d h w : Z) :
  1 <= d -> 1 <= h -> 1 <= w ->
  forward (ResidualConv3dBlock c 3) [b; c; d; h; w] = inr [b; c; d; h; w].
Proof.
  intros Hd Hh Hw. rewrite ResidualConv3dBlock_3, forward_Residual.
  repeat (rewrite forward_Sequential_cons;
          first [rewrite forward_conv_same by assumption
                | rewrite forward_ReLU];
          cbn [bind]).
  rewrite forward_Sequential_nil. cbn [bind].
  rewrite broadcast_shapes_same. reflexivity.
Qed.

End ForwardFacts.

(** ** encoders.py: [DefaultPVNet.forward] *)
Section DefaultPVNetFacts.

Import Encoders.
Local Open Scope Z_scope.

Lemma forward_Linear_rows (fin fout b k : Z) :
  k = fin -> forward (Linear fin fout) [b; k] = inr [b; fout].
Proof. intros ->. cbn. now rewrite Z.eqb_refl. Qed.

Lemma reshape_rows_batch (b : Z) (rest : shape) :
  b <> 0 -> reshape_rows b (b :: rest) = inr [b; numel rest].
Proof.
  intros Hb. unfold reshape_rows.
  destruct (Z.eqb_spec b 0); [contradiction|].
  change (numel (b :: rest)) with (b * numel rest).
  rewrite Z.mul_comm, Z_mod_mult, Z.eqb_refl, Z.div_mul by assumption.
  reflexivity.
Qed.

(** The layers the constructor of [DefaultPVNet] builds when its guard
    passes. *)
Lemma DefaultPVNet_init_ok
  (sequence_length image_size_pixels in_channels out_features
   number_of_conv3d_layers conv3d_channels fc_features : Z) :
  0 < image_size_pixels - 2 * number_of_conv3d_layers ->
  DefaultPVNet_init sequence_length image_size_pixels in_channels
    out_features number_of_conv3d_layers conv3d_channels fc_features
  = inr (mkDefaultPVNet
           (Sequential
              (Conv3d in_channels conv3d_channels
                 (3, 3, 3) (1, 0, 0) (1, 1, 1)
               :: LeakyReLU
               :: flat_map
                    (fun _ =>
                       [Conv3d conv3d_channels conv3d_channels
                          (3, 3, 3) (1, 0, 0) (1, 1, 1);
                        LeakyReLU])
                    (Py.range (number_of_conv3d_layers - 1))))
           (Linear
              (conv3d_channels
               * (image_size_pixels - 2 * number_of_conv3d_layers) ^ 2
               * sequence_length)
              fc_features)
           (Linear fc_features out_features)).
Proof.
  intros Hg. unfold DefaultPVNet_init.
  destruct (Z.ltb_spec 0 (image_size_pixels - 2 * number_of_conv3d_layers));
    [reflexivity | lia].
Qed.

(** X1: on an input laid out as (batch, channels, sequence, height, width)
    the forward pass of [DefaultPVNet] gives the shape (batch, out_features). *)
Theorem DefaultPVNet_forward_channels_first
  (sequence_length image_size_pixels in_channels out_features
   number_of_conv3d_layers conv3d_channels fc_features batch_size : Z) :
  1 <= number_of_conv3d_layers ->
  0 < image_size_pixels - 2 * number_of_conv3d_layers ->
  1 <= sequence_length ->
  batch_size <> 0 ->
  exists encoder,
    DefaultPVNet_init sequence_length image_size_pixels in_channels
      out_features number_of_conv3d_layers conv3d_channels fc_features
    = inr encoder /\
    DefaultPVNet_forward encoder
      [batch_size; in_channels; sequence_length;
       image_size_pixels; image_size_pixels]
    = inr [batch_size; out_features].
Proof.
  intros HL Hg Hs Hb. eexists. split; [now apply DefaultPVNet_init_ok|].
  unfold DefaultPVNet_forward. cbn [conv_layers fc1 fc2].
  rewrite forward_Sequential_cons, forward_conv_valid by lia. cbn [bind].
  rewrite forward_Sequential_cons, forward_LeakyReLU. cbn [bind].
  rewrite forward_valid_stack by (rewrite ?range_length; lia). cbn [bind].
  rewrite reshape_rows_batch by assumption. cbn [bind].
  rewrite range_length, Z2Nat.id by lia.
  rewrite forward_Linear_rows by (cbn [numel fold_right]; ring).
  cbn [bind]. rewrite forward_ReLU. cbn [bind].
  rewrite forward_Linear_rows by reflexivity. reflexivity.
Qed.

Lemma DefaultPVNet_forward_channels_first_witness :
  exists encoder,
    DefaultPVNet_init 2 8 3 4 1 5 6 = inr encoder /\
    DefaultPVNet_forward encoder [1; 3; 2; 8; 8] = inr [1; 4].
Proof.
  apply (DefaultPVNet_forward_channels_first 2 8 3 4 1 5 6 1); lia.
Defined.

(** C6, evaluated: an encoder built for 3 channels and sequences of length
    2 rejects an input of the documented shape
    (batch_size, sequence_length, channels, height, width) = (1, 2, 3, 8, 8),
    whose second dimension the first convolution reads as the channels. *)
Theorem C6_documented_shape_rejected :
  exists encoder,
    DefaultPVNet_init 2 8 3 4 1 5 6 = inr encoder /\
    DefaultPVNet_forward encoder (documented_input 1 2 3 8 8)
    = inl RuntimeError /\
    DefaultPVNet_forward encoder [1; 3; 2; 8; 8] = inr [1; 4].
Proof. eexists. repeat split. Qed.

End DefaultPVNetFacts.

(** ** encoders.py: [EncoderUNET.forward] *)
Section EncoderUNETFacts.

Import Encoders.
Local Open Scope Z_scope.

Lemma forward_downscale_block (c b d h : Z) :
  1 <= d -> 2 <= h ->
  forward (downscale_block c) [b; c; d; h; h] = inr [b; c; d; h / 2; h / 2].
Proof.
  intros Hd Hh. unfold downscale_block.
  rewrite forward_Sequential_cons, forward_residual_block by lia.
  cbn [bind].
  rewrite forward_Sequential_cons, forward_conv_downscale by lia.
  cbn [bind].
  rewrite forward_Sequential_cons, forward_LeakyReLU. cbn [bind].
  apply forward_Sequential_nil.
Qed.

Lemma forward_CenterCrop (s b c d h w : Z) :
  forward (CenterCrop s) [b; c; d; h; w] = inr [b; c; d; s; s].
Proof. reflexivity. Qed.

Lemma pow2_succ (k : nat) : 2 ^ Z.of_nat (S k) = 2 * 2 ^ Z.of_nat k.
Proof. rewrite Nat2Z.inj_succ, Z.pow_succ_r by lia. reflexivity. Qed.

Lemma half_bound (h : Z) (k : nat) :
  2 ^ Z.of_nat (S k) <= h -> 2 <= h /\ 2 ^ Z.of_nat k <= h / 2.
Proof.
  rewrite pow2_succ. intros H.
  assert (0 < 2 ^ Z.of_nat k) by (apply pow2_pos; lia).
  split; [lia|]. apply Z.div_le_lower_bound; lia.
Qed.

(** The loop of [forward]: every downscaling layer halves the spatial size,
    and every cropped result has the size of the crop. *)
Lemma collect_downscale (c b d s : Z) (idx : list Z) :
  forall (h : Z) (outputs : list shape),
    1 <= d -> 2 ^ Z.of_nat (length idx) <= h ->
    collect (CenterCrop s) (map (fun _ => downscale_block c) idx)
      [b; c; d; h; h] outputs
    = inr (outputs ++ repeat [b; c; d; s; s] (length idx)).
Proof.
  induction idx as [|i idx IH]; intros h outputs Hd Hh.
  - cbn. now rewrite app_nil_r.
  - cbn [length] in Hh. apply half_bound in Hh. destruct Hh as [H2 Hh].
    cbn [map collect length repeat].
    rewrite forward_downscale_block by assumption. cbn [bind].
    rewrite forward_CenterCrop. cbn [bind].
    rewrite IH by assumption. now rewrite <- app_assoc.
Qed.

(** The shapes before the crop: the spatial size after [j] downscaling
    layers is [h // 2^j]. *)
Lemma run_layers_downscale (c b d : Z) (idx : list Z) :
  forall h : Z,
    1 <= d -> 2 ^ Z.of_nat (length idx) <= h ->
    run_layers (map (fun _ => downscale_block c) idx) [b; c; d; h; h]
    = inr (map (fun j => [b; c; d; h / 2 ^ Z.of_nat j; h / 2 ^ Z.of_nat j])
             (seq 1 (length idx))).
Proof.
  induction idx as [|i idx IH]; intros h Hd Hh; [reflexivity|].
  cbn [length] in Hh. apply half_bound in Hh. destruct Hh as [H2 Hh].
  cbn [map run_layers length seq].
  rewrite forward_downscale_block by assumption. cbn [bind].
  rewrite IH by assumption. cbn [bind]. f_equal.
  apply f_equal2; [reflexivity|].
  rewrite <- (seq_shift (length idx) 1), map_map. apply map_ext. intros j.
  rewrite pow2_succ, Zdiv_Zdiv by (try apply Z.pow_nonneg; lia).
  reflexivity.
Qed.

Lemma shape_eqb_refl (a : shape) : shape_eqb a a = true.
Proof.
  induction a as [|x a IH]; [reflexivity|].
  cbn. now rewrite Z.eqb_refl, IH.
Qed.

(** Concatenating [k + 1] tensors of one shape along dimension 1. *)
Lemma cat1_repeat (b c : Z) (tl : shape) (k : nat) :
  cat1 (repeat (b :: c :: tl) (S k))
  = inr (b :: c * (1 + Z.of_nat k) :: tl).
Proof.
  induction k as [|k IH].
  - cbn [repeat cat1 Z.of_nat]. do 3 f_equal. lia.
  - change (repeat (b :: c :: tl) (S (S k)))
      with ((b :: c :: tl) :: repeat (b :: c :: tl) (S k)).
    cbn [cat1]. change (repeat (b :: c :: tl) (S k))
      with ((b :: c :: tl) :: repeat (b :: c :: tl) k) at 1.
    cbv iota. rewrite IH. cbn [bind].
    rewrite Z.eqb_refl, shape_eqb_refl. cbn [andb].
    do 3 f_equal. lia.
Qed.

(** The layers the constructor of [EncoderUNET] builds when its guard
    passes. *)
Lemma EncoderUNET_init_ok
  (sequence_length image_size_pixels in_channels out_features
   n_downscale conv3d_channels fc_features : Z) :
  0 <= n_downscale -> 2 ^ n_downscale <= image_size_pixels ->
  EncoderUNET_init sequence_length image_size_pixels in_channels
    out_features n_downscale conv3d_channels fc_features
  = inr (mkEncoderUNET
           (Sequential
              [Conv3d in_channels conv3d_channels
                 (1, 1, 1) (0, 0, 0) (1, 1, 1);
               LeakyReLU;
               ResidualConv3dBlock conv3d_channels 3])
           (map (fun _ => downscale_block conv3d_channels)
              (Py.range n_downscale))
           (CenterCrop (image_size_pixels / 2 ^ n_downscale))
           (Conv3d (conv3d_channels * (1 + n_downscale)) conv3d_channels
              (1, 1, 1) (0, 0, 0) (1, 1, 1))
           (ResidualConv3dBlock conv3d_channels 3)
           (Sequential
              [Linear ((image_size_pixels / 2 ^ n_downscale) ^ 2
                       * conv3d_channels * sequence_length) fc_features;
               LeakyReLU;
               Linear fc_features out_features])).
Proof.
  intros Hn Hg. unfold EncoderUNET_init.
  rewrite floordiv_pow2_nonneg_exp by assumption.
  assert (0 < image_size_pixels / 2 ^ n_downscale)
    by (apply div_pos_iff; [now apply pow2_pos | assumption]).
  destruct (Z.ltb_spec 0 (image_size_pixels / 2 ^ n_downscale));
    [reflexivity | lia].
Qed.

End EncoderUNETFacts.

(** ** encoders.py: the multi-scale concatenation of [EncoderUNET] *)
Section ConcatenationFacts.

Import Encoders.
Local Open Scope Z_scope.

Lemma forward_first_layer (cin c b d h : Z) :
  1 <= d -> 1 <= h ->
  forward
    (Sequential
       [Conv3d cin c (1, 1, 1) (0, 0, 0) (1, 1, 1); LeakyReLU;
        ResidualConv3dBlock c 3])
    [b; cin; d; h; h]
  = inr [b; c; d; h; h].
Proof.
  intros Hd Hh.
  rewrite forward_Sequential_cons, forward_conv_pointwise by lia.
  cbn [bind].
  rewrite forward_Sequential_cons, forward_LeakyReLU. cbn [bind].
  rewrite forward_Sequential_cons, forward_residual_block by lia.
  cbn [bind]. apply forward_Sequential_nil.
Qed.

Lemma forward_final_block (fin fc fout b k : Z) :
  k = fin ->
  forward (Sequential [Linear fin fc; LeakyReLU; Linear fc fout]) [b; k]
  = inr [b; fout].
Proof.
  intros ->.
  rewrite forward_Sequential_cons, forward_Linear_rows by reflexivity.
  cbn [bind].
  rewrite forward_Sequential_cons, forward_LeakyReLU. cbn [bind].
  rewrite forward_Sequential_cons, forward_Linear_rows by reflexivity.
  cbn [bind]. apply forward_Sequential_nil.
Qed.

(** The crop target is at most every spatial size before the crop. *)
Lemma crop_target_le (h n : Z) (j : nat) :
  0 <= h -> Z.of_nat j <= n -> h / 2 ^ n <= h / 2 ^ Z.of_nat j.
Proof.
  intros Hh Hj. apply Z.div_le_compat_l; [assumption|]. split.
  - apply pow2_pos. lia.
  - apply Z.pow_le_mono_r; lia.
Qed.

(** X2: on an input laid out as (batch, channels, sequence, height, width)
    the forward pass of a validly constructed [EncoderUNET] collects
    [1 + n_downscale] feature maps. Before the crop the map after [k]
    downscaling layers has the spatial size [image_size_pixels // 2^k], which
    the crop never has to pad; after the crop every map has the spatial size
    [image_size_pixels // 2^n_downscale]; their concatenation has
    [conv3d_channels * (1 + n_downscale)] channels, the [in_channels] of
    [cat_conv]; and the result has the shape (batch, out_features). *)
Theorem EncoderUNET_forward_channels_first
  (sequence_length image_size_pixels in_channels out_features
   n_downscale conv3d_channels fc_features batch_size : Z) :
  0 <= n_downscale ->
  2 ^ n_downscale <= image_size_pixels ->
  1 <= sequence_length ->
  let s := image_size_pixels / 2 ^ n_downscale in
  let x := [batch_size; in_channels; sequence_length;
            image_size_pixels; image_size_pixels] in
  let precrop :=
    map (fun k => [batch_size; conv3d_channels; sequence_length;
                   image_size_pixels / 2 ^ Z.of_nat k;
                   image_size_pixels / 2 ^ Z.of_nat k])
      (seq 0 (S (Z.to_nat n_downscale))) in
  let cropped :=
    repeat [batch_size; conv3d_channels; sequence_length; s; s]
      (S (Z.to_nat n_downscale)) in
  exists encoder,
    EncoderUNET_init sequence_length image_size_pixels in_channels
      out_features n_downscale conv3d_channels fc_features
    = inr encoder /\
    EncoderUNET_precrop encoder x = inr precrop /\
    crop_fn encoder = CenterCrop s /\
    Forall (fun pre => crop_pads s pre = false) precrop /\
    EncoderUNET_outputs encoder x = inr cropped /\
    cat1 cropped
    = inr [batch_size; conv3d_channels * (1 + n_downscale);
           sequence_length; s; s] /\
    cat_conv encoder
    = Conv3d (conv3d_channels * (1 + n_downscale)) conv3d_channels
        (1, 1, 1) (0, 0, 0) (1, 1, 1) /\
    EncoderUNET_forward encoder x = inr [batch_size; out_features].
Proof.
  intros Hn Hg Hs s x precrop cropped.
  assert (Hp : 0 < 2 ^ n_downscale) by now apply pow2_pos.
  assert (Hs1 : 1 <= s).
  { assert (0 < s); [|lia]. now apply div_pos_iff. }
  assert (Hlen : Z.of_nat (length (Py.range n_downscale)) = n_downscale).
  { rewrite range_length, Z2Nat.id; lia. }
  assert (Hcat : cat1 cropped
                 = inr [batch_size; conv3d_channels * (1 + n_downscale);
                        sequence_length; s; s]).
  { unfold cropped. rewrite cat1_repeat, Z2Nat.id by assumption.
    reflexivity. }
  assert (Hout : forall enc,
            first_layer enc
            = Sequential
                [Conv3d in_channels conv3d_channels
                   (1, 1, 1) (0, 0, 0) (1, 1, 1);
                 LeakyReLU; ResidualConv3dBlock conv3d_channels 3] ->
            downscale_layers enc
            = map (fun _ => downscale_block conv3d_channels)
                (Py.range n_downscale) ->
            crop_fn enc = CenterCrop s ->
            EncoderUNET_outputs enc x = inr cropped).
  { intros enc E1 E2 E3. unfold EncoderUNET_outputs.
    rewrite E1, E2, E3. unfold x.
    rewrite forward_first_layer by lia. cbn [bind].
    rewrite forward_CenterCrop. cbn [bind].
    rewrite collect_downscale by (rewrite ?Hlen; lia).
    rewrite range_length. reflexivity. }
  eexists. split; [now apply EncoderUNET_init_ok|].
  cbn [first_layer downscale_layers crop_fn cat_conv final_conv final_block].
  split; [|split; [reflexivity|split; [|split; [|split; [|split]]]]].
  - unfold EncoderUNET_precrop.
    cbn [first_layer downscale_layers]. unfold x.
    rewrite forward_first_layer by lia. cbn [bind].
    rewrite run_layers_downscale by (rewrite ?Hlen; lia). cbn [bind].
    rewrite range_length. unfold precrop. cbn [seq map].
    f_equal. apply f_equal2; [|reflexivity].
    cbn [Z.of_nat]. rewrite Z.pow_0_r, Z.div_1_r. reflexivity.
  - unfold precrop. apply Forall_forall. intros pre Hpre.
    apply in_map_iff in Hpre. destruct Hpre as (k & <- & Hk).
    apply in_seq in Hk.
    assert (s <= image_size_pixels / 2 ^ Z.of_nat k)
      by (apply crop_target_le; lia).
    cbn [crop_pads rev app].
    destruct (Z.ltb_spec (image_size_pixels / 2 ^ Z.of_nat k) s);
      [lia | reflexivity].
  - now apply Hout.
  - exact Hcat.
  - reflexivity.
  - unfold EncoderUNET_forward. rewrite Hout by reflexivity. cbn [bind].
    rewrite Hcat. cbn [bind cat_conv final_conv final_block].
    rewrite forward_conv_pointwise by lia. cbn [bind].
    rewrite forward_residual_block by lia. cbn [bind flatten1].
    apply forward_final_block. fold s. cbn [numel fold_right]. ring.
Qed.

Lemma EncoderUNET_forward_channels_first_witness :
  exists encoder,
    EncoderUNET_init 2 8 3 4 2 5 6 = inr encoder /\
    EncoderUNET_outputs encoder [1; 3; 2; 8; 8]
    = inr [[1; 5; 2; 2; 2]; [1; 5; 2; 2; 2]; [1; 5; 2; 2; 2]] /\
    EncoderUNET_forward encoder [1; 3; 2; 8; 8] = inr [1; 4].
Proof.
  destruct (EncoderUNET_forward_channels_first 2 8 3 4 2 5 6 1)
    as (enc & Hi & _ & _ & _ & Ho & _ & _ & Hf); [lia | cbn; lia | lia |].
  exists enc. split; [exact Hi|]. split; [exact Ho | exact Hf].
Defined.

(** C7, evaluated: an [EncoderUNET] built for 3 channels and sequences of
    length 2 collects the three feature maps of size 8 // 2^2 = 2 and
    concatenates them to 5 * 3 channels on the layout
    (batch, channels, sequence, height, width), but on the documented layout
    (batch_size, sequence_length, channels, height, width) its first layer
    rejects the input and no feature map is collected. *)
Theorem C7_documented_shape_collects_nothing :
  exists encoder,
    EncoderUNET_init 2 8 3 4 2 5 6 = inr encoder /\
    EncoderUNET_outputs encoder (documented_input 1 2 3 8 8)
    = inl RuntimeError /\
    EncoderUNET_forward encoder (documented_input 1 2 3 8 8)
    = inl RuntimeError /\
    EncoderUNET_outputs encoder [1; 3; 2; 8; 8]
    = inr [[1; 5; 2; 2; 2]; [1; 5; 2; 2; 2]; [1; 5; 2; 2; 2]] /\
    bind (EncoderUNET_outputs encoder [1; 3; 2; 8; 8]) cat1
    = inr [1; 15; 2; 2; 2].
Proof. eexists. repeat split. Qed.

End ConcatenationFacts.

(** ** checkpoint_to_huggingface.py: the first assertion *)
Section ScriptFacts.

Import Script.
Local Open Scope string_scope.

Context {Config Model Checkpoint StateDict : Type}.
Variable w : World Config Model Checkpoint StateDict.

Lemma proceeds_ret {A : Type} (a : A) : proceeds (ret a).
Proof. intros tr. exists []. cbn. rewrite app_nil_r. split; congruence. Qed.

Lemma proceeds_raise {A : Type} (e : error) :
  e <> AssertionError HubOrLocalPath -> proceeds (@raise A e).
Proof.
  intros He tr. exists []. cbn. rewrite app_nil_r. split; congruence.
Qed.

Lemma starts_with_call {A : Type} (ev : event) (r : option A) :
  starts_with ev (call ev r).
Proof.
  intros tr. exists []. unfold call.
  destruct r; cbn; split; congruence.
Qed.

Lemma starts_with_proceeds {A : Type} (ev : event) (m : M A) :
  starts_with ev m -> proceeds m.
Proof.
  intros H tr. destruct (H tr) as (more & E & N). now exists (ev :: more).
Qed.

Lemma proceeds_call {A : Type} (ev : event) (r : option A) :
  proceeds (call ev r).
Proof. apply (starts_with_proceeds ev), starts_with_call. Qed.

Lemma proceeds_bind {A B : Type} (m : M A) (k : A -> M B) :
  proceeds m -> (forall a, proceeds (k a)) -> proceeds (bind m k).
Proof.
  intros Hm Hk tr. destruct (Hm tr) as (more & E & N). unfold bind.
  destruct (m tr) as [tr' [e|a]]; cbn in *.
  - exists more. split; congruence.
  - destruct (Hk a tr') as (more' & E' & N'). subst tr'.
    exists (more ++ more')%list. rewrite app_assoc. split; assumption.
Qed.

Lemma starts_with_bind {A B : Type} (ev : event) (m : M A) (k : A -> M B) :
  starts_with ev m -> (forall a, proceeds (k a)) ->
  starts_with ev (bind m k).
Proof.
  intros Hm Hk tr. destruct (Hm tr) as (more & E & N). unfold bind.
  destruct (m tr) as [tr' [e|a]]; cbn in *.
  - exists more. split; congruence.
  - destruct (Hk a tr') as (more' & E' & N'). subst tr'.
    exists (more ++ more')%list. rewrite E', <- app_assoc. split; [reflexivity|].
    assumption.
Qed.

Lemma starts_with_ret_bind {A B : Type} (ev : event) (a : A) (k : A -> M B) :
  starts_with ev (k a) -> starts_with ev (bind (ret a) k).
Proof. intros H tr. exact (H tr). Qed.

Lemma proceeds_assert (b : bool) (a : assertion) :
  a <> HubOrLocalPath -> proceeds (assert_ b a).
Proof.
  intros Ha. destruct b; [apply proceeds_ret|].
  apply proceeds_raise. congruence.
Qed.

Ltac proceeds_step :=
  first
    [ apply proceeds_ret
    | apply proceeds_call
    | apply proceeds_assert; discriminate
    | apply proceeds_raise; discriminate
    | apply proceeds_bind; [|intros ?]
    | match goal with
      | |- proceeds (if ?b then _ else _) => destruct b
      | |- proceeds (match ?x with _ => _ end) => destruct x
      end ].

(** The body makes a first call, the wandb lookup or, when the wandb id is
    given, the parsing of the model configuration, and from there on only
    appends to the trace. *)
Lemma push_body_starts (checkpoint_dir_path : string) (val_best : bool)
  (wandb_id local_path : option string) (push_to_hub : bool) :
  starts_with
    match wandb_id with
    | None => WandbRuns "openclimatefix/pvnet2.1"
    | Some _ => ParseConfig (checkpoint_dir_path ++ "/model_config.yaml")
    end
    (push_body w checkpoint_dir_path val_best wandb_id local_path
       push_to_hub).
Proof.
  unfold push_body. destruct wandb_id as [id|].
  - apply starts_with_ret_bind.
    apply starts_with_bind; [apply starts_with_call|].
    intros model_config. repeat proceeds_step.
  - apply starts_with_bind.
    + apply starts_with_bind; [apply starts_with_call|].
      intros ids. apply proceeds_ret.
    + intros wid. repeat proceeds_step.
Qed.

(** C10: with [push_to_hub] false and no [local_path],
    [push_to_huggingface] ends with the [AssertionError] of its first
    statement and has made no call to the outside; with [push_to_hub] true or
    a [local_path] the assertion passes and the body runs: the next call is
    made and the run does not end with that [AssertionError]. *)
Theorem C10_hub_or_local_path_asserted_first
  (checkpoint_dir_path : string) (val_best : bool)
  (wandb_id local_path : option string) (push_to_hub : bool)
  (tr : list event) :
  let run :=
    push_to_huggingface w checkpoint_dir_path val_best wandb_id local_path
      push_to_hub tr in
  (push_to_hub = false /\ local_path = None ->
   run = (tr, inl (AssertionError HubOrLocalPath))) /\
  (push_to_hub = true \/ local_path <> None ->
   run = push_body w checkpoint_dir_path val_best wandb_id local_path
           push_to_hub tr /\
   snd run <> inl (AssertionError HubOrLocalPath) /\
   exists more,
     fst run
     = (tr ++ match wandb_id with
              | None => WandbRuns "openclimatefix/pvnet2.1"
              | Some _ =>
                ParseConfig (checkpoint_dir_path ++ "/model_config.yaml")
              end :: more)%list).
Proof.
  cbv zeta. split.
  - intros [-> ->]. reflexivity.
  - intros Hc.
    assert (E : push_to_huggingface w checkpoint_dir_path val_best wandb_id
                  local_path push_to_hub tr
                = push_body w checkpoint_dir_path val_best wandb_id
                    local_path push_to_hub tr).
    { unfold push_to_huggingface.
      destruct push_to_hub; [reflexivity|].
      destruct local_path; [reflexivity|].
      destruct Hc; congruence. }
    rewrite E. split; [reflexivity|].
    destruct (push_body_starts checkpoint_dir_path val_best wandb_id
                local_path push_to_hub tr) as (more & Ht & Hr).
    split; [exact Hr | now exists more].
Qed.

End ScriptFacts.

(** C10 in a world where every call succeeds and one checkpoint file is
    found. *)
Lemma C10_hub_or_local_path_asserted_first_witness :
  let w : Script.World unit unit unit unit :=
    Script.mkWorld
      (fun _ => Some ["abc123"%string])
      (fun _ => Some tt) (fun _ => Some tt)
      (fun _ => ["ckpts/abc123/epoch=7.ckpt"%string])
      (fun _ => Some tt) (fun _ => Some tt) (fun _ _ => Some tt)
      (fun _ => false) (fun _ _ => Some (tt, tt))
      (fun _ => true) "/tmp/tmpdir"%string
      (fun _ _ _ _ _ _ _ => Some tt) true true in
  Script.push_to_huggingface w "ckpts/abc123" true None None false []
  = ([], inl (Script.AssertionError Script.HubOrLocalPath)) /\
  snd (Script.push_to_huggingface w "ckpts/abc123" true None
         (Some "out"%string) false [])
  <> inl (Script.AssertionError Script.HubOrLocalPath).
Proof.
  cbv zeta. split.
  - apply (C10_hub_or_local_path_asserted_first _ "ckpts/abc123"%string
             true None None false []).
    split; reflexivity.
  - apply (C10_hub_or_local_path_asserted_first _ "ckpts/abc123"%string
             true None (Some "out"%string) false []).
    right. discriminate.
Defined.

(** ** loss.py: further properties of the weights and of the losses *)
Section LossShapeFacts.

Import Tensor Loss.
Local Open Scope R_scope.







End LossShapeFacts.

(** ** loss.py: symmetry of the losses, and the sizes they accept *)
Section LossSizeFacts.

Import Tensor Loss.
Local Open Scope R_scope.

(** X7: on vectors of [forecast_length] entries both losses are symmetric
    in output and target. *)
Theorem losses_symmetric
  (dr : option R) (n : Z) (output target : tensor) :
  Z.of_nat (length output) = n ->
  Z.of_nat (length target) = n ->
  let self := init dr n in
  get_mse_exp self output target = get_mse_exp self target output /\
  get_mae_exp self output target = get_mae_exp self target output.
Proof.
  intros Ho Ht self.
  assert (Hw : length (weights self) = Z.to_nat n) by apply weights_length.
  rewrite !get_mse_exp_same_size, !get_mae_exp_same_size by lia.
  rewrite !(weighted_sum_sigma (fun x => x ^ 2) _ _ _ (Z.to_nat n)) by lia.
  rewrite !(weighted_sum_sigma Rabs _ _ _ (Z.to_nat n)) by lia.
  split.
  - f_equal. apply sigma_ext. intros i _. ring.
  - f_equal. apply sigma_ext. intros i _. now rewrite Rabs_minus_sym.
Qed.

Lemma losses_symmetric_witness :
  get_mse_exp (init None 2) [1; 5] [2; 3]
  = get_mse_exp (init None 2) [2; 3] [1; 5].
Proof.
  apply (losses_symmetric None 2 [1; 5] [2; 3]); reflexivity.
Defined.

Lemma broadcast2_mismatch (f : R -> R -> R) (a b : tensor) :
  length a <> length b -> length a <> 1%nat -> length b <> 1%nat ->
  broadcast2 f a b = None.
Proof.
  intros Hab Ha Hb. unfold broadcast2.
  rewrite (proj2 (Nat.eqb_neq _ _) Hab).
  destruct a as [|x [|y a]]; destruct b as [|u [|v b]];
    cbn in *; congruence.
Qed.

(** X8: how the losses treat sizes: for a horizon of [n >= 2] steps they
    fail on an output and a target of [k] entries when [k] is neither [n] nor
    1; and a horizon [n <= 0] leaves no weights, so both losses of empty
    vectors are 0. *)
Theorem losses_and_sizes (dr : option R) (n : Z) :
  ((2 <= n)%Z ->
   forall output target : tensor,
     length output = length target ->
     Z.of_nat (length output) <> n -> length output <> 1%nat ->
     get_mse_exp (init dr n) output target = None /\
     get_mae_exp (init dr n) output target = None) /\
  ((n <= 0)%Z ->
   weights (init dr n) = [] /\
   get_mse_exp (init dr n) [] [] = Some 0 /\
   get_mae_exp (init dr n) [] [] = Some 0).
Proof.
  assert (Hl := weights_length dr n).
  split.
  - intros Hn output target Hot Hk H1.
    unfold get_mse_exp, get_mae_exp, sub.
    rewrite broadcast2_same_length by assumption.
    unfold mul, square, abs.
    rewrite !broadcast2_mismatch;
      rewrite ?length_map, ?zip_with_length by assumption;
      try (split; reflexivity); lia.
  - intros Hn.
    assert (E : weights (init dr n) = []).
    { apply length_zero_iff_nil. lia. }
    unfold get_mse_exp, get_mae_exp. rewrite E. repeat split.
Qed.

Lemma losses_and_sizes_witness :
  get_mse_exp (init None 6) [1; 2; 3] [1; 2; 4] = None /\
  weights (init None 0) = [].
Proof.
  destruct (losses_and_sizes None 6) as (Hmis & _).
  destruct (losses_and_sizes None 0) as (_ & Hz).
  split.
  - apply (Hmis ltac:(lia) [1; 2; 3] [1; 2; 4]); cbn; lia.
  - apply Hz. lia.
Defined.

End LossSizeFacts.

(** ** baseline/last_value.py: errors, and what the forecast depends on *)
Section LastValueMoreFacts.

Import LastValue.
Local Open Scope Z_scope.

Context {A : Type}.

Lemma index_below_range {T : Type} (l : list T) (i : Z) :
  i < 0 -> Z.of_nat (length l) + i < 0 -> Py.index l i = None.
Proof.
  intros Hneg Hout. unfold Py.index.
  destruct (Z.leb_spec 0 i); [lia|].
  destruct (Z.leb_spec 0 (Z.of_nat (length l) + i)); [lia | reflexivity].
Qed.

(** X9: [forward] raises a [KeyError] on a batch without the [gsp] key, and
    an [IndexError] on a non-empty batch whose sequences are shorter than
    [forecast_len + 1] or which has no site. *)
Theorem forward_errors (self : Model) (x : batch A) :
  (x gsp = None -> forward self x = inl KeyError) /\
  (forall (gsp_yield : tensor3 A) (batch_size seq_length n_sites : Z),
     x gsp = Some gsp_yield ->
     has_shape3 batch_size seq_length n_sites gsp_yield ->
     1 <= batch_size ->
     0 <= forecast_len self ->
     seq_length < forecast_len self + 1 \/ n_sites < 1 ->
     forward self x = inl IndexError).
Proof.
  split.
  - intros Hx. unfold forward. now rewrite Hx.
  - intros g b s n Hx [Hb Hg] Hb1 Hk Hbad.
    unfold forward. rewrite Hx.
    destruct g as [|m g]; [cbn in Hb; lia|].
    apply Forall_inv in Hg. destruct Hg as [Hm Hrows].
    cbn [select].
    destruct (Z.lt_ge_cases s (forecast_len self + 1)) as [Hshort|Hlong].
    + rewrite index_below_range by lia. reflexivity.
    + assert (Hn : n < 1) by (destruct Hbad; [lia | assumption]).
      rewrite index_negative by lia.
      destruct (nth_error_in_range m
                  (Z.to_nat (Z.of_nat (length m) + (- forecast_len self - 1)))
                  ltac:(lia)) as [row Hrow].
      rewrite Hrow.
      assert (Hlen : Z.of_nat (length row) = n).
      { apply nth_error_In in Hrow.
        now apply (proj1 (Forall_forall _ _) Hrows). }
      destruct row; [reflexivity | cbn in Hlen; lia].
Qed.

Lemma nth_error_ext {T : Type} (l l' : list T) :
  length l = length l' ->
  (forall i, (i < length l)%nat -> nth_error l i = nth_error l' i) ->
  l = l'.
Proof.
  revert l'. induction l as [|a l IH]; intros [|a' l'] Hlen Hnth;
    cbn in Hlen; try discriminate; [reflexivity|].
  f_equal.
  - specialize (Hnth 0%nat ltac:(cbn; lia)). cbn in Hnth. congruence.
  - apply IH; [congruence|]. intros i Hi.
    apply (Hnth (S i)). cbn. lia.
Qed.

(** X10: the forecast depends on the last observed value of the first site
    only: two batches whose [gsp] tensors agree at
    [(b, seq_length - forecast_len - 1, 0)] for every batch element [b] get
    the same forecast, whatever their other entries, sites, lengths and keys
    are. *)
Theorem forward_reads_last_observed_only
  (self : Model) (x x' : batch A) (g g' : tensor3 A)
  (batch_size s n s' n' : Z) :
  x gsp = Some g -> x' gsp = Some g' ->
  has_shape3 batch_size s n g ->
  has_shape3 batch_size s' n' g' ->
  0 <= forecast_len self ->
  forecast_len self + 1 <= s -> forecast_len self + 1 <= s' ->
  1 <= n -> 1 <= n' ->
  (forall b, Z.of_nat b < batch_size ->
     entry3 g b (Z.to_nat (s - forecast_len self - 1)) 0
     = entry3 g' b (Z.to_nat (s' - forecast_len self - 1)) 0) ->
  forward self x = forward self x'.
Proof.
  intros Hx Hx' [Hb Hg] [Hb' Hg'] Hk Hs Hs' Hn Hn' Hsame.
  destruct (select_last_observed g s n (forecast_len self) Hg Hk Hs Hn)
    as (ys & Hsel & Hlen & Hent).
  destruct (select_last_observed g' s' n' (forecast_len self) Hg' Hk Hs' Hn')
    as (ys' & Hsel' & Hlen' & Hent').
  unfold forward. rewrite Hx, Hx', Hsel, Hsel'.
  replace ys' with ys; [reflexivity|].
  apply nth_error_ext; [lia|]. intros i Hi.
  destruct (Hent i ltac:(lia)) as (v & Hv & Hgv).
  destruct (Hent' i ltac:(lia)) as (v' & Hv' & Hgv').
  rewrite Hv, Hv'. rewrite Hsame in Hgv by lia. congruence.
Qed.

End LastValueMoreFacts.

Lemma forward_errors_witness :
  LastValue.forward (LastValue.mkModel 3)
    (fun k => match k with
              | LastValue.gsp => Some [[[1; 2]; [3; 4]; [5; 6]]]%nat
              | _ => None
              end)
  = inl LastValue.IndexError.
Proof.
  apply (proj2 (forward_errors (A := nat) (LastValue.mkModel 3) _)
           [[[1; 2]; [3; 4]; [5; 6]]]%nat 1%Z 3%Z 2%Z eq_refl).
  - split; [reflexivity|]. repeat constructor.
  - lia.
  - cbn. lia.
  - left. cbn. lia.
Defined.

Lemma forward_reads_last_observed_only_witness :
  LastValue.forward (LastValue.mkModel 1)
    (fun k => match k with
              | LastValue.gsp => Some [[[1; 2]; [3; 4]; [5; 6]]]%nat
              | _ => None
              end)
  = LastValue.forward (LastValue.mkModel 1)
      (fun k => match k with
                | LastValue.gsp => Some [[[3]; [9]]]%nat
                | LastValue.pv => Some [[[7]]]%nat
                | _ => None
                end).
Proof.
  apply (forward_reads_last_observed_only (A := nat) (LastValue.mkModel 1)
           _ _ [[[1; 2]; [3; 4]; [5; 6]]]%nat [[[3]; [9]]]%nat
           1%Z 3%Z 2%Z 2%Z 1%Z eq_refl eq_refl).
  - split; [reflexivity|]. repeat constructor.
  - split; [reflexivity|]. repeat constructor.
  - cbn. lia.
  - cbn. lia.
  - cbn. lia.
  - lia.
  - lia.
  - intros [|b] Hb; [reflexivity | cbn in Hb; lia].
Defined.

(** ** encoders.py: the residual block and the inputs the encoders reject *)
Section EncoderEdgeFacts.

Import Encoders.
Local Open Scope Z_scope.

(** The convolutions of a residual block, whatever the indices of the loop
    are, keep the shape. *)
Lemma forward_residual_convs (c b d h w : Z) (idx : list Z) :
  1 <= d -> 1 <= h -> 1 <= w ->
  forward
    (Sequential
       (flat_map
          (fun i =>
             (if i =? 0 then [] else [ReLU])
             ++ [Conv3d c c (3, 3, 3) (1, 1, 1) (1, 1, 1)])
          idx))
    [b; c; d; h; w]
  = inr [b; c; d; h; w].
Proof.
  intros Hd Hh Hw. induction idx as [|i idx IH]; [reflexivity|].
  cbn [flat_map]. rewrite forward_Sequential_app.
  destruct (i =? 0); cbn [app].
  - rewrite forward_Sequential_cons, forward_conv_same by assumption.
    cbn [bind]. rewrite forward_Sequential_nil. cbn [bind]. exact IH.
  - rewrite forward_Sequential_cons, forward_ReLU. cbn [bind].
    rewrite forward_Sequential_cons, forward_conv_same by assumption.
    cbn [bind]. rewrite forward_Sequential_nil. cbn [bind]. exact IH.
Qed.

Lemma range_pos_head (n : Z) :
  1 <= n -> exists rest, Py.range n = 0 :: rest.
Proof.
  intros Hn. unfold Py.range.
  destruct (Z.to_nat n) as [|k] eqn:E; [lia|].
  cbn [seq map Z.of_nat]. eauto.
Qed.

Lemma forward_conv_wrong_channels (cin cout : Z) (k p s : triple)
  (b c d h w : Z) :
  c <> cin ->
  forward (Conv3d cin cout k p s) [b; c; d; h; w] = inl RuntimeError.
Proof.
  intros Hc. cbn [forward]. unfold conv3d_shape.
  destruct k as [[kd kh] kw], p as [[pd ph] pw], s as [[sd sh] sw].
  destruct (Z.eqb_spec c cin); [contradiction | reflexivity].
Qed.

(** X11: a [ResidualConv3dBlock] with any number of layers keeps the shape
    of a 5-d input with its number of channels; with at least one layer it
    rejects every other number of channels. *)
Theorem ResidualConv3dBlock_keeps_shape (in_channels n_layers b d h w : Z) :
  1 <= d -> 1 <= h -> 1 <= w ->
  forward (ResidualConv3dBlock in_channels n_layers)
    [b; in_channels; d; h; w]
  = inr [b; in_channels; d; h; w] /\
  forall c, 1 <= n_layers -> c <> in_channels ->
    forward (ResidualConv3dBlock in_channels n_layers) [b; c; d; h; w]
    = inl RuntimeError.
Proof.
  intros Hd Hh Hw. unfold ResidualConv3dBlock. split.
  - rewrite forward_Residual, forward_residual_convs by assumption.
    cbn [bind]. rewrite broadcast_shapes_same. reflexivity.
  - intros c Hn Hc. rewrite forward_Residual.
    destruct (range_pos_head n_layers Hn) as [rest ->].
    cbn [flat_map Z.eqb app].
    rewrite forward_Sequential_cons, forward_conv_wrong_channels
      by assumption.
    reflexivity.
Qed.

Lemma ResidualConv3dBlock_keeps_shape_witness :
  forward (ResidualConv3dBlock 32 2) [16; 32; 7; 24; 24]
  = inr [16; 32; 7; 24; 24].
Proof.
  apply (ResidualConv3dBlock_keeps_shape 32 2 16 7 24 24); lia.
Defined.

Lemma EncoderUNET_first_layer_fails (encoder : EncoderUNET) (x : shape)
  (e : error) :
  forward (first_layer encoder) x = inl e ->
  EncoderUNET_outputs encoder x = inl e /\
  EncoderUNET_forward encoder x = inl e.
Proof.
  intros H. unfold EncoderUNET_forward, EncoderUNET_outputs.
  rewrite H. split; reflexivity.
Qed.

(** X12: whenever [sequence_length] differs from [in_channels], the forward
    passes of [DefaultPVNet] and of [EncoderUNET] raise on every input of the
    documented shape
    (batch_size, sequence_length, channels, height, width). *)
Theorem documented_layout_rejected
  (sequence_length image_size_pixels in_channels out_features
   depth conv3d_channels fc_features batch_size : Z) :
  sequence_length <> in_channels ->
  let x := documented_input batch_size sequence_length in_channels
             image_size_pixels image_size_pixels in
  (forall encoder,
     DefaultPVNet_init sequence_length image_size_pixels in_channels
       out_features depth conv3d_channels fc_features = inr encoder ->
     DefaultPVNet_forward encoder x = inl RuntimeError) /\
  (forall encoder,
     EncoderUNET_init sequence_length image_size_pixels in_channels
       out_features depth conv3d_channels fc_features = inr encoder ->
     EncoderUNET_outputs encoder x = inl RuntimeError /\
     EncoderUNET_forward encoder x = inl RuntimeError).
Proof.
  intros Hne x. split.
  - intros enc Hi. unfold DefaultPVNet_init in Hi.
    destruct (negb (0 <? image_size_pixels - 2 * depth));
      [discriminate|].
    injection Hi as <-. unfold DefaultPVNet_forward. cbn [conv_layers].
    cbn [app]. unfold x, documented_input.
    rewrite forward_Sequential_cons, forward_conv_wrong_channels
      by assumption.
    reflexivity.
  - intros enc Hi. unfold EncoderUNET_init in Hi.
    destruct (negb (0 <? floordiv_pow2 image_size_pixels depth));
      [discriminate|].
    injection Hi as <-. apply EncoderUNET_first_layer_fails.
    cbn [first_layer]. unfold x, documented_input.
    rewrite forward_Sequential_cons, forward_conv_wrong_channels
      by assumption.
    reflexivity.
Qed.

Lemma documented_layout_rejected_witness :
  exists encoder,
    EncoderUNET_init 7 24 11 128 4 32 128 = inr encoder /\
    EncoderUNET_forward encoder (documented_input 16 7 11 24 24)
    = inl RuntimeError.
Proof.
  assert (H : 7 <> 11) by lia.
  destruct (EncoderUNET_init 7 24 11 128 4 32 128) as [e|enc] eqn:E;
    [discriminate|].
  exists enc. split; [reflexivity|].
  apply (proj2 (documented_layout_rejected 7 24 11 128 4 32 128 16 H) enc).
  exact E.
Defined.

End EncoderEdgeFacts.

(** ** encoders.py: image sizes the encoders were not built for *)
Section ImageSizeFacts.

Import Encoders.
Local Open Scope Z_scope.

Lemma forward_conv_valid_fails (cin cout b d h w : Z) :
  d < 1 \/ h < 3 \/ w < 3 ->
  forward (Conv3d cin cout (3, 3, 3) (1, 0, 0) (1, 1, 1)) [b; cin; d; h; w]
  = inl RuntimeError.
Proof.
  intros H. cbn [forward]. unfold conv3d_shape, conv_dim.
  rewrite Z.eqb_refl.
  destruct (Z.ltb_spec (d + 2 * 1) 3); [reflexivity|].
  destruct (Z.ltb_spec (h + 2 * 0) 3); [reflexivity|].
  destruct (Z.ltb_spec (w + 2 * 0) 3); [reflexivity|]. lia.
Qed.

(** The repeated layers of [DefaultPVNet] fail when the image is used up
    before the last of them. *)
Lemma forward_valid_stack_fails (c b d : Z) (idx : list Z) :
  forall h : Z,
    1 <= d -> 1 <= h -> h - 2 * Z.of_nat (length idx) < 1 ->
    forward
      (Sequential
         (flat_map
            (fun _ => [Conv3d c c (3, 3, 3) (1, 0, 0) (1, 1, 1); LeakyReLU])
            idx))
      [b; c; d; h; h]
    = inl RuntimeError.
Proof.
  induction idx as [|i idx IH]; intros h Hd Hh Hsmall.
  - cbn [length Z.of_nat] in Hsmall. lia.
  - cbn [length] in Hsmall. cbn [flat_map app].
    rewrite forward_Sequential_cons.
    destruct (Z.lt_ge_cases h 3) as [Hlt|Hge].
    + rewrite forward_conv_valid_fails by lia. reflexivity.
    + rewrite forward_conv_valid by lia. cbn [bind].
      rewrite forward_Sequential_cons, forward_LeakyReLU. cbn [bind].
      apply IH; lia.
Qed.

Lemma forward_Linear_mismatch (fin fout b k : Z) :
  k <> fin -> forward (Linear fin fout) [b; k] = inl RuntimeError.
Proof.
  intros H. cbn. destruct (Z.eqb_spec k fin); [contradiction | reflexivity].
Qed.

Lemma reshape_rows_batch_any (b : Z) (rest : shape) :
  reshape_rows b (b :: rest) = inl RuntimeError \/
  reshape_rows b (b :: rest) = inr [b; numel rest].
Proof.
  destruct (Z.eq_dec b 0) as [->|Hb].
  - left. reflexivity.
  - right. now apply reshape_rows_batch.
Qed.

(** Features of two different positive spatial sizes never flatten to the
    same length. *)
Lemma flattened_sizes_differ (ch sl a c : Z) :
  ch <> 0 -> 1 <= sl -> 1 <= a -> 1 <= c -> a <> c ->
  numel [ch; sl; a; a] <> ch * c ^ 2 * sl.
Proof.
  intros Hch Hsl Ha Hc Hac. cbn [numel fold_right]. intros E.
  assert (E' : ch * (sl * (a * a - c * c)) = 0).
  { replace (c ^ 2) with (c * c) in E by ring. lia. }
  apply Z.mul_eq_0 in E'. destruct E' as [|E']; [contradiction|].
  apply Z.mul_eq_0 in E'. destruct E' as [|E']; [lia|].
  assert (a * a <> c * c); [|lia].
  destruct (Z.lt_ge_cases a c); nia.
Qed.

(** The forward pass of a [DefaultPVNet] from the result of its
    convolutions on. *)
Lemma DefaultPVNet_head_mismatch (fin fc fout b : Z) (rest : shape) :
  numel rest <> fin ->
  bind
    (bind (reshape_rows b (b :: rest))
       (fun out => forward (Linear fin fc) out))
    (fun out =>
       bind (forward ReLU out)
         (fun out => bind (forward (Linear fc fout) out) (forward ReLU)))
  = inl RuntimeError.
Proof.
  intros H. destruct (reshape_rows_batch_any b rest) as [-> | ->];
    [reflexivity|].
  cbn [bind]. rewrite forward_Linear_mismatch by assumption. reflexivity.
Qed.

Lemma DefaultPVNet_forward_unfold (self : DefaultPVNet) (b : Z)
  (rest : shape) (y : result shape) :
  forward (conv_layers self) (b :: rest) = y ->
  DefaultPVNet_forward self (b :: rest)
  = bind y
      (fun out =>
         bind
           (bind (reshape_rows b out)
              (fun out => forward (fc1 self) out))
           (fun out =>
              bind (forward ReLU out)
                (fun out =>
                   bind (forward (fc2 self) out) (forward ReLU)))).
Proof.
  intros <-. unfold DefaultPVNet_forward.
  destruct (forward (conv_layers self) (b :: rest)) as [e|out];
    [reflexivity|].
  cbn [bind]. destruct (reshape_rows b out); reflexivity.
Qed.

(** X13: [number_of_conv3d_layers <= 0] passes the guard of the constructor
    for every positive image size, but one convolution is built all the
    same, so the forward pass raises on every input of the size the encoder
    was built for. *)
Theorem DefaultPVNet_without_layers_never_runs
  (sequence_length image_size_pixels in_channels out_features
   number_of_conv3d_layers conv3d_channels fc_features : Z) :
  number_of_conv3d_layers <= 0 ->
  0 < image_size_pixels ->
  conv3d_channels <> 0 ->
  exists encoder,
    DefaultPVNet_init sequence_length image_size_pixels in_channels
      out_features number_of_conv3d_layers conv3d_channels fc_features
    = inr encoder /\
    conv_layers encoder
    = Sequential
        [Conv3d in_channels conv3d_channels (3, 3, 3) (1, 0, 0) (1, 1, 1);
         LeakyReLU] /\
    forall batch_size,
      1 <= sequence_length ->
      DefaultPVNet_forward encoder
        [batch_size; in_channels; sequence_length;
         image_size_pixels; image_size_pixels]
      = inl RuntimeError.
Proof.
  intros HL Himg Hch. eexists.
  split; [apply DefaultPVNet_init_ok; lia|].
  assert (Hr : Py.range (number_of_conv3d_layers - 1) = []).
  { unfold Py.range.
    replace (Z.to_nat (number_of_conv3d_layers - 1)) with 0%nat by lia.
    reflexivity. }
  cbn [conv_layers]. rewrite Hr. cbn [flat_map].
  split; [reflexivity|]. intros b Hs.
  destruct (Z.lt_ge_cases image_size_pixels 3) as [Hlt|Hge].
  - erewrite DefaultPVNet_forward_unfold; cycle 1.
    { cbn [conv_layers].
      rewrite forward_Sequential_cons, forward_conv_valid_fails by lia.
      reflexivity. }
    reflexivity.
  - erewrite DefaultPVNet_forward_unfold; cycle 1.
    { cbn [conv_layers].
      rewrite forward_Sequential_cons, forward_conv_valid by lia.
      cbn [bind]. rewrite forward_Sequential_cons, forward_LeakyReLU.
      cbn [bind]. apply forward_Sequential_nil. }
    cbn [bind fc1 fc2]. apply DefaultPVNet_head_mismatch.
    apply flattened_sizes_differ; lia.
Qed.

Lemma DefaultPVNet_without_layers_never_runs_witness :
  exists encoder,
    DefaultPVNet_init 7 24 11 128 0 32 128 = inr encoder /\
    DefaultPVNet_forward encoder [16; 11; 7; 24; 24] = inl RuntimeError.
Proof.
  destruct (DefaultPVNet_without_layers_never_runs 7 24 11 128 0 32 128)
    as (enc & Hi & _ & Hf); [lia | lia | lia |].
  exists enc. split; [exact Hi | apply Hf; lia].
Defined.

(** X15: a [DefaultPVNet] rejects every square input of another image size
    than the one it was built for. *)
Theorem DefaultPVNet_rejects_other_image_size
  (sequence_length image_size_pixels in_channels out_features
   number_of_conv3d_layers conv3d_channels fc_features batch_size h : Z) :
  1 <= number_of_conv3d_layers ->
  0 < image_size_pixels - 2 * number_of_conv3d_layers ->
  conv3d_channels <> 0 ->
  1 <= sequence_length ->
  h <> image_size_pixels ->
  exists encoder,
    DefaultPVNet_init sequence_length image_size_pixels in_channels
      out_features number_of_conv3d_layers conv3d_channels fc_features
    = inr encoder /\
    DefaultPVNet_forward encoder
      [batch_size; in_channels; sequence_length; h; h]
    = inl RuntimeError.
Proof.
  intros HL Hg Hch Hs Hh. eexists.
  split; [now apply DefaultPVNet_init_ok|].
  assert (Hlen : Z.of_nat (length (Py.range (number_of_conv3d_layers - 1)))
                 = number_of_conv3d_layers - 1).
  { rewrite range_length, Z2Nat.id; lia. }
  destruct (Z.lt_ge_cases h 3) as [Hlt|Hge].
  - erewrite DefaultPVNet_forward_unfold; cycle 1.
    { cbn [conv_layers].
      rewrite forward_Sequential_cons, forward_conv_valid_fails by lia.
      reflexivity. }
    reflexivity.
  - destruct (Z.lt_ge_cases (h - 2 * number_of_conv3d_layers) 1)
      as [Hsmall|Hfit].
    + erewrite DefaultPVNet_forward_unfold; cycle 1.
      { cbn [conv_layers].
        rewrite forward_Sequential_cons, forward_conv_valid by lia.
        cbn [bind]. rewrite forward_Sequential_cons, forward_LeakyReLU.
        cbn [bind]. apply forward_valid_stack_fails; lia. }
      reflexivity.
    + erewrite DefaultPVNet_forward_unfold; cycle 1.
      { cbn [conv_layers].
        rewrite forward_Sequential_cons, forward_conv_valid by lia.
        cbn [bind]. rewrite forward_Sequential_cons, forward_LeakyReLU.
        cbn [bind]. apply forward_valid_stack; lia. }
      cbn [bind fc1 fc2]. apply DefaultPVNet_head_mismatch.
      rewrite Hlen. apply flattened_sizes_differ; lia.
Qed.

Lemma DefaultPVNet_rejects_other_image_size_witness :
  exists encoder,
    DefaultPVNet_init 7 24 11 128 4 32 128 = inr encoder /\
    DefaultPVNet_forward encoder [16; 11; 7; 32; 32] = inl RuntimeError.
Proof.
  apply (DefaultPVNet_rejects_other_image_size 7 24 11 128 4 32 128 16 32);
    lia.
Defined.

(** X14: an [EncoderUNET] does not check the image size: on every square
    input of a size [h >= 2^n_downscale] the cropping brings all feature maps
    to the size [image_size_pixels // 2^n_downscale] it was built for,
    padding the maps that are smaller, and the forward pass returns
    (batch, out_features). *)
Theorem EncoderUNET_accepts_other_image_size
  (sequence_length image_size_pixels in_channels out_features
   n_downscale conv3d_channels fc_features batch_size h : Z) :
  0 <= n_downscale ->
  2 ^ n_downscale <= image_size_pixels ->
  2 ^ n_downscale <= h ->
  1 <= sequence_length ->
  let s := image_size_pixels / 2 ^ n_downscale in
  let x := [batch_size; in_channels; sequence_length; h; h] in
  exists encoder,
    EncoderUNET_init sequence_length image_size_pixels in_channels
      out_features n_downscale conv3d_channels fc_features
    = inr encoder /\
    EncoderUNET_precrop encoder x
    = inr (map (fun k => [batch_size; conv3d_channels; sequence_length;
                          h / 2 ^ Z.of_nat k; h / 2 ^ Z.of_nat k])
             (seq 0 (S (Z.to_nat n_downscale)))) /\
    (forall k, (k <= Z.to_nat n_downscale)%nat ->
       crop_pads s [batch_size; conv3d_channels; sequence_length;
                    h / 2 ^ Z.of_nat k; h / 2 ^ Z.of_nat k]
       = (h / 2 ^ Z.of_nat k <? s)) /\
    EncoderUNET_outputs encoder x
    = inr (repeat [batch_size; conv3d_channels; sequence_length; s; s]
             (S (Z.to_nat n_downscale))) /\
    EncoderUNET_forward encoder x = inr [batch_size; out_features].
Proof.
  intros Hn Hg Hh Hs s x.
  assert (Hp : 0 < 2 ^ n_downscale) by now apply pow2_pos.
  assert (Hs1 : 1 <= s).
  { assert (0 < s); [|lia]. now apply div_pos_iff. }
  assert (Hlen : Z.of_nat (length (Py.range n_downscale)) = n_downscale).
  { rewrite range_length, Z2Nat.id; lia. }
  eexists. split; [now apply EncoderUNET_init_ok|].
  assert (Hout : forall enc,
            first_layer enc
            = Sequential
                [Conv3d in_channels conv3d_channels
                   (1, 1, 1) (0, 0, 0) (1, 1, 1);
                 LeakyReLU; ResidualConv3dBlock conv3d_channels 3] ->
            downscale_layers enc
            = map (fun _ => downscale_block conv3d_channels)
                (Py.range n_downscale) ->
            crop_fn enc = CenterCrop s ->
            EncoderUNET_outputs enc x
            = inr (repeat [batch_size; conv3d_channels; sequence_length;
                           s; s] (S (Z.to_nat n_downscale)))).
  { intros enc E1 E2 E3. unfold EncoderUNET_outputs.
    rewrite E1, E2, E3. unfold x.
    rewrite forward_first_layer by lia. cbn [bind].
    rewrite forward_CenterCrop. cbn [bind].
    rewrite collect_downscale by (rewrite ?Hlen; lia).
    rewrite range_length. reflexivity. }
  split; [|split; [|split]].
  - unfold EncoderUNET_precrop.
    cbn [first_layer downscale_layers]. unfold x.
    rewrite forward_first_layer by lia. cbn [bind].
    rewrite run_layers_downscale by (rewrite ?Hlen; lia). cbn [bind].
    rewrite range_length. cbn [seq map].
    f_equal. apply f_equal2; [|reflexivity].
    cbn [Z.of_nat]. rewrite Z.pow_0_r, Z.div_1_r. reflexivity.
  - intros k _. cbn [crop_pads rev app]. apply orb_diag.
  - now apply Hout.
  - unfold EncoderUNET_forward. rewrite Hout by reflexivity. cbn [bind].
    rewrite cat1_repeat, Z2Nat.id by assumption.
    cbn [bind cat_conv final_conv final_block].
    rewrite forward_conv_pointwise by lia. cbn [bind].
    rewrite forward_residual_block by lia. cbn [bind flatten1].
    apply forward_final_block. fold s. cbn [numel fold_right]. ring.
Qed.

Lemma EncoderUNET_accepts_other_image_size_witness :
  exists encoder,
    EncoderUNET_init 7 24 11 128 4 32 128 = inr encoder /\
    EncoderUNET_forward encoder [16; 11; 7; 64; 64] = inr [16; 128] /\
    EncoderUNET_forward encoder [16; 11; 7; 16; 16] = inr [16; 128].
Proof.
  destruct (EncoderUNET_accepts_other_image_size 7 24 11 128 4 32 128 16 64)
    as (enc & Hi & _ & _ & _ & Hf); [lia | cbn; lia | cbn; lia | lia |].
  destruct (EncoderUNET_accepts_other_image_size 7 24 11 128 4 32 128 16 16)
    as (enc' & Hi' & _ & _ & _ & Hf'); [lia | cbn; lia | cbn; lia | lia |].
  exists enc. split; [exact Hi|]. split; [exact Hf|].
  rewrite Hi in Hi'. injection Hi' as <-. exact Hf'.
Defined.

End ImageSizeFacts.

(** ** checkpoint_to_huggingface.py: the directory name and the saving *)
Section ScriptMoreFacts.

Import Script.
Local Open Scope string_scope.

Lemma append_nil_r (s : string) : s ++ "" = s.
Proof. induction s as [|c s IH]; cbn; congruence. Qed.

Lemma append_assoc (a b c : string) : (a ++ b) ++ c = a ++ (b ++ c).
Proof. induction a as [|x a IH]; cbn; congruence. Qed.

Lemma last_segment_from_no_slash (s acc : string) :
  has_slash s = false -> last_segment_from acc s = acc ++ s.
Proof.
  revert acc. induction s as [|c s IH]; intros acc H; cbn in *.
  - now rewrite append_nil_r.
  - apply orb_false_iff in H. destruct H as [Hc Hs].
    rewrite Hc, IH, append_assoc by assumption. reflexivity.
Qed.

Lemma last_segment_from_after_slash (a b acc : string) :
  last_segment_from acc (a ++ "/" ++ b) = last_segment_from "" b.
Proof.
  revert acc. induction a as [|c a IH]; intros acc; [reflexivity|].
  cbn [append last_segment_from].
  destruct (Ascii.eqb c "/"); apply IH.
Qed.

Lemma has_slash_append (a b : string) :
  has_slash (a ++ b) = has_slash a || has_slash b.
Proof.
  induction a as [|c a IH]; cbn; [reflexivity|].
  now rewrite IH, orb_assoc.
Qed.

Lemma last_segment_from_has_no_slash (s acc : string) :
  has_slash acc = false -> has_slash (last_segment_from acc s) = false.
Proof.
  revert acc. induction s as [|c s IH]; intros acc H; cbn; [assumption|].
  destruct (Ascii.eqb c "/") eqn:E; apply IH; [reflexivity|].
  rewrite has_slash_append, H. cbn. now rewrite E.
Qed.

(** X16: the directory name [checkpoint_dir_path.split("/")[-1]] compared
    with the wandb run ids is what follows the last ["/"]: it is [b] for a
    path [a/b] with no ["/"] in [b], the whole path when it has no ["/"],
    never contains a ["/"], and is empty for a path that ends in ["/"]. *)
Theorem last_segment_is_after_last_slash :
  (forall a b, has_slash b = false -> last_segment (a ++ "/" ++ b) = b) /\
  (forall s, has_slash s = false -> last_segment s = s) /\
  (forall s, has_slash (last_segment s) = false) /\
  (forall s, last_segment (s ++ "/") = "").
Proof.
  unfold last_segment. split; [|split; [|split]].
  - intros a b Hb.
    rewrite last_segment_from_after_slash.
    now rewrite last_segment_from_no_slash.
  - intros s Hs. now rewrite last_segment_from_no_slash.
  - intros s. now apply last_segment_from_has_no_slash.
  - intros s. change (s ++ "/") with (s ++ "/" ++ "").
    now rewrite last_segment_from_after_slash.
Qed.

Lemma last_segment_is_after_last_slash_witness :
  last_segment "path/to/abc123" = "abc123" /\
  last_segment "path/to/abc123/" = "".
Proof.
  split.
  - apply (proj1 last_segment_is_after_last_slash "path/to" "abc123").
    reflexivity.
  - apply (proj2 (proj2 (proj2 last_segment_is_after_last_slash))
             "path/to/abc123").
Defined.

End ScriptMoreFacts.

(** ** checkpoint_to_huggingface.py: what a run saves *)
Section ScriptTraceFacts.

Import Script.
Local Open Scope string_scope.

Context {Config Model Checkpoint StateDict : Type}.
Variable w : World Config Model Checkpoint StateDict.

(** Runs the script on every answer of the outside, one case per answer. *)
Ltac run_cases :=
  repeat
    (cbn -[append last_segment existsb String.eqb] in *;
     match goal with
     | |- context [match ?x with _ => _ end] =>
       lazymatch x with
       | context [match _ with _ => _ end] => fail
       | _ => destruct x eqn:?
       end
     end);
  cbn -[append last_segment existsb String.eqb] in *.

(** X17: a run calls [save_pretrained] at most once, and only as it was
    asked to: after the assertion on [push_to_hub] and [local_path], when
    [data_config.yaml] is a file and, with [val_best], exactly one
    [epoch*.ckpt] file was found; into [local_path], or the temporary
    directory when there is none; with the given [push_to_hub], with the
    repository [openclimatefix/pvnet_v2] exactly when pushing, and with the
    given wandb id when there is one. *)
Theorem save_pretrained_called_as_asked
  (checkpoint_dir_path : string) (val_best : bool)
  (wandb_id local_path : option string) (push_to_hub : bool) :
  let run :=
    push_to_huggingface w checkpoint_dir_path val_best wandb_id local_path
      push_to_hub [] in
  let model_output_dir :=
    match local_path with Some p => p | None => temp_dir_name w end in
  let repo_id :=
    if push_to_hub then Some "openclimatefix/pvnet_v2" else None in
  saves (fst run) = [] \/
  exists wandb_model_code,
    saves (fst run)
    = [(model_output_dir, wandb_model_code, push_to_hub, repo_id)] /\
    (push_to_hub = true \/ local_path <> None) /\
    isfile w (checkpoint_dir_path ++ "/data_config.yaml") = true /\
    (val_best = true ->
     exists file, glob w (checkpoint_dir_path ++ "/epoch*.ckpt") = [file]) /\
    (forall id, wandb_id = Some id -> wandb_model_code = Some id).
Proof.
  cbv zeta. unfold push_to_huggingface, push_body, bind, call, assert_,
    ret, raise.
  run_cases;
    first
      [ left; reflexivity
      | right; eexists; (split; [reflexivity|]);
        repeat split;
        first
          [ left; reflexivity
          | right; discriminate
          | discriminate
          | intros ? [= <-]; reflexivity
          | solve [eauto] ] ].
Qed.

(** X18: a run that returns has saved the model exactly once, having loaded
    exactly one checkpoint before, and has cleaned up the temporary
    directory exactly when it made one, that is when no [local_path] was
    given. *)
Theorem success_means_saved_once
  (checkpoint_dir_path : string) (val_best : bool)
  (wandb_id local_path : option string) (push_to_hub : bool) :
  let run :=
    push_to_huggingface w checkpoint_dir_path val_best wandb_id local_path
      push_to_hub [] in
  snd run = inr tt ->
  length (saves (fst run)) = 1%nat /\
  length (loads (fst run)) = 1%nat /\
  existsb is_temporary_directory (fst run)
  = match local_path with None => true | Some _ => false end /\
  existsb is_cleanup (fst run)
  = match local_path with None => true | Some _ => false end.
Proof.
  cbv zeta. unfold push_to_huggingface, push_body, bind, call, assert_,
    ret, raise.
  run_cases; intros H; first [discriminate H | repeat split].
Qed.

(** X19: a run that raises has saved nothing, unless it is
    [save_pretrained] itself that raised, or the cleaning up of the temporary
    directory after it. When [save_pretrained] raises, the run ends without
    a call that cleans up the temporary directory, which it made exactly when
    no [local_path] was given. *)
Theorem failed_run_and_saving
  (checkpoint_dir_path : string) (val_best : bool)
  (wandb_id local_path : option string) (push_to_hub : bool) (e : error) :
  let run :=
    push_to_huggingface w checkpoint_dir_path val_best wandb_id local_path
      push_to_hub [] in
  snd run = inl e ->
  saves (fst run) = [] \/
  ((exists d c p r, e = Raised (SavePretrained d c p r)) /\
   existsb is_cleanup (fst run) = false /\
   existsb is_temporary_directory (fst run)
   = match local_path with None => true | Some _ => false end) \/
  (e = Raised Cleanup /\ local_path = None /\
   cleanup_ok w = false /\ length (saves (fst run)) = 1%nat).
Proof.
  cbv zeta. unfold push_to_huggingface, push_body, bind, call, assert_,
    ret, raise.
  run_cases; intros H;
    first
      [ discriminate H
      | left; reflexivity
      | right; left; injection H as <-;
        split; [do 4 eexists; reflexivity | split; reflexivity]
      | right; right; injection H as <-; repeat split; assumption ].
Qed.

(** X20: the wandb id that is saved with the model: the given one, without
    any lookup; or, when none is given, the name of the checkpoint directory
    if the lookup lists it among the runs of the project, and none
    otherwise. *)
Theorem saved_wandb_id
  (checkpoint_dir_path : string) (val_best : bool)
  (wandb_id local_path : option string) (push_to_hub : bool) :
  let run :=
    push_to_huggingface w checkpoint_dir_path val_best wandb_id local_path
      push_to_hub [] in
  (forall id, wandb_id = Some id ->
     existsb is_wandb_lookup (fst run) = false) /\
  (forall d c p r,
     saves (fst run) = [(d, c, p, r)] ->
     match wandb_id with
     | Some id => c = Some id
     | None =>
       exists ids,
         wandb_run_ids w "openclimatefix/pvnet2.1" = Some ids /\
         c = if existsb (String.eqb (last_segment checkpoint_dir_path)) ids
             then Some (last_segment checkpoint_dir_path)
             else None
     end).
Proof.
  cbv zeta. unfold push_to_huggingface, push_body, bind, call, assert_,
    ret, raise.
  run_cases; split;
    try (intros ? ?; first [discriminate | reflexivity]);
    intros ? ? ? ? H; try discriminate H;
    injection H as <- <- <- <-;
    try reflexivity;
    eexists; split; try reflexivity;
    match goal with
    | E : existsb _ _ = _ |- _ => now rewrite E
    end.
Qed.

(** X21: which checkpoint a run loads: at most one; without [val_best] the
    file [last.ckpt], with [val_best] the only file that matches
    [epoch*.ckpt]. The run ends with the [AssertionError] on the number of
    files exactly when, everything before having worked, [val_best] is set
    and no or several files match; it has then loaded and saved nothing. *)
Theorem loaded_checkpoint
  (checkpoint_dir_path : string) (val_best : bool)
  (wandb_id local_path : option string) (push_to_hub : bool) :
  let run :=
    push_to_huggingface w checkpoint_dir_path val_best wandb_id local_path
      push_to_hub [] in
  (loads (fst run) = [] \/
   loads (fst run)
   = [if val_best
      then nth 0 (glob w (checkpoint_dir_path ++ "/epoch*.ckpt")) ""
      else checkpoint_dir_path ++ "/last.ckpt"]) /\
  (snd run = inl (AssertionError OneCheckpointFile) <->
   (push_to_hub = true \/ local_path <> None) /\
   val_best = true /\
   length (glob w (checkpoint_dir_path ++ "/epoch*.ckpt")) <> 1%nat /\
   (wandb_id = None ->
    wandb_run_ids w "openclimatefix/pvnet2.1" <> None) /\
   exists model_config,
     parse_config w (checkpoint_dir_path ++ "/model_config.yaml")
     = Some model_config /\
     instantiate w model_config <> None) /\
  (snd run = inl (AssertionError OneCheckpointFile) ->
   loads (fst run) = [] /\ saves (fst run) = []).
Proof.
  cbv zeta. unfold push_to_huggingface, push_body, bind, call, assert_,
    ret, raise.
  destruct push_to_hub; run_cases.
  all: split; [first [left; reflexivity | right; reflexivity]|].
  all: split; [|first [discriminate | intros _; split; reflexivity]].
  all: split;
    [ intros Heq;
      first
        [ discriminate Heq
        | repeat split;
          first
            [ reflexivity
            | left; reflexivity
            | right; discriminate
            | discriminate
            | intros _; discriminate
            | eexists; split; [reflexivity | congruence] ] ]
    | intros (Hc & Hv & Hl & Hwb & cfg & Hp & Hi);
      first
        [ reflexivity
        | exfalso;
          first
            [ discriminate Hv
            | destruct Hc; congruence
            | apply Hl; reflexivity
            | apply Hwb; reflexivity
            | discriminate Hp
            | injection Hp as <-; congruence ] ] ].
Qed.

End ScriptTraceFacts.

(** X18 in a world where every call succeeds and one checkpoint file is
    found. *)
Lemma success_means_saved_once_witness :
  let w : Script.World unit unit unit unit :=
    Script.mkWorld
      (fun _ => Some ["abc123"%string])
      (fun _ => Some tt) (fun _ => Some tt)
      (fun _ => ["ckpts/abc123/epoch=7.ckpt"%string])
      (fun _ => Some tt) (fun _ => Some tt) (fun _ _ => Some tt)
      (fun _ => false) (fun _ _ => Some (tt, tt))
      (fun _ => true) "/tmp/tmpdir"%string
      (fun _ _ _ _ _ _ _ => Some tt) true true in
  snd (Script.push_to_huggingface w "ckpts/abc123" true None None true [])
  = inr tt /\
  length (Script.saves
            (fst (Script.push_to_huggingface w "ckpts/abc123" true None None
                    true [])))
  = 1%nat.
Proof.
  cbv zeta. split; [reflexivity|].
  apply (success_means_saved_once _ "ckpts/abc123"%string true None None
           true).
  reflexivity.
Defined.

(** X19 in a world where the temporary directory cannot be cleaned up. *)
Lemma failed_run_and_saving_witness :
  let w : Script.World unit unit unit unit :=
    Script.mkWorld
      (fun _ => Some ["abc123"%string])
      (fun _ => Some tt) (fun _ => Some tt)
      (fun _ => ["ckpts/abc123/epoch=7.ckpt"%string])
      (fun _ => Some tt) (fun _ => Some tt) (fun _ _ => Some tt)
      (fun _ => false) (fun _ _ => Some (tt, tt))
      (fun _ => true) "/tmp/tmpdir"%string
      (fun _ _ _ _ _ _ _ => Some tt) true false in
  snd (Script.push_to_huggingface w "ckpts/abc123" true None None true [])
  = inl (Script.Raised Script.Cleanup) /\
  (Script.saves
     (fst (Script.push_to_huggingface w "ckpts/abc123" true None None
             true [])) = [] \/
   ((exists d c p r,
       Script.Raised Script.Cleanup
       = Script.Raised (Script.SavePretrained d c p r)) /\
    existsb Script.is_cleanup
      (fst (Script.push_to_huggingface w "ckpts/abc123" true None None
              true [])) = false /\
    existsb Script.is_temporary_directory
      (fst (Script.push_to_huggingface w "ckpts/abc123" true None None
              true [])) = true) \/
   (Script.Raised Script.Cleanup = Script.Raised Script.Cleanup /\
    @None string = None /\
    Script.cleanup_ok w = false /\
    length
      (Script.saves
         (fst (Script.push_to_huggingface w "ckpts/abc123" true None None
                 true []))) = 1%nat)).
Proof.
  cbv zeta. split; [reflexivity|].
  apply (failed_run_and_saving _ "ckpts/abc123"%string true None None true).
  reflexivity.
Defined.

(** ** Runs on concrete inputs *)
Section Examples.

Local Open Scope Z_scope.

(** With the default depth of 4 a [DefaultPVNet] needs images of more than
    8 pixels and an [EncoderUNET] images of at least 16 pixels. *)
Example DefaultPVNet_init_8_pixels :
  Encoders.DefaultPVNet_init 7 8 11 128 4 32 128 = inl Encoders.ValueError.
Proof. reflexivity. Qed.

Example DefaultPVNet_init_9_pixels :
  Encoders.DefaultPVNet_init 7 9 11 128 4 32 128
  = inr (Encoders.mkDefaultPVNet
           (Encoders.Sequential
              [Encoders.Conv3d 11 32 (3, 3, 3) (1, 0, 0) (1, 1, 1);
               Encoders.LeakyReLU;
               Encoders.Conv3d 32 32 (3, 3, 3) (1, 0, 0) (1, 1, 1);
               Encoders.LeakyReLU;
               Encoders.Conv3d 32 32 (3, 3, 3) (1, 0, 0) (1, 1, 1);
               Encoders.LeakyReLU;
               Encoders.Conv3d 32 32 (3, 3, 3) (1, 0, 0) (1, 1, 1);
               Encoders.LeakyReLU])
           (Encoders.Linear 224 128)
           (Encoders.Linear 128 128)).
Proof. reflexivity. Qed.

Example EncoderUNET_init_15_pixels :
  Encoders.EncoderUNET_init 7 15 11 128 4 32 128 = inl Encoders.ValueError.
Proof. reflexivity. Qed.

Example EncoderUNET_forward_24_pixels :
  Encoders.bind (Encoders.EncoderUNET_init 7 24 11 128 4 32 128)
    (fun encoder =>
       Encoders.EncoderUNET_precrop encoder [16; 11; 7; 24; 24])
  = inr [[16; 32; 7; 24; 24]; [16; 32; 7; 12; 12]; [16; 32; 7; 6; 6];
         [16; 32; 7; 3; 3]; [16; 32; 7; 1; 1]].
Proof. reflexivity. Qed.

(** A negative [n_downscale] makes [2 ** n_downscale] a fraction: the guard
    then only asks for a positive image size. *)
Example EncoderUNET_init_negative_downscale :
  Encoders.floordiv_pow2 3 (-2) = 12 /\
  Encoders.floordiv_pow2 0 (-2) = 0 /\
  Encoders.EncoderUNET_init 7 0 11 128 (-2) 32 128
  = inl Encoders.ValueError.
Proof. repeat split. Qed.

(** The baseline on a sequence shorter than the horizon plus one. *)
Example LastValue_forward_short_sequence :
  LastValue.forward (LastValue.mkModel 3)
    (fun k => match k with
              | LastValue.gsp => Some [[[1; 2]; [3; 4]; [5; 6]]]%nat
              | _ => None
              end)
  = inl LastValue.IndexError.
Proof. reflexivity. Qed.

(** A complete run of the script that saves a local copy only. *)
Example push_to_huggingface_local_copy :
  let w : Script.World unit unit unit unit :=
    Script.mkWorld
      (fun _ => Some ["abc123"%string])
      (fun _ => Some tt) (fun _ => Some tt)
      (fun _ => ["ckpts/abc123/epoch=7.ckpt"%string])
      (fun _ => Some tt) (fun _ => Some tt) (fun _ _ => Some tt)
      (fun _ => false) (fun _ _ => Some (tt, tt))
      (fun _ => true) "/tmp/tmpdir"%string
      (fun _ _ _ _ _ _ _ => Some tt) true true in
  Script.push_to_huggingface w "ckpts/abc123" true None
    (Some "out"%string) false []
  = ([Script.WandbRuns "openclimatefix/pvnet2.1";
      Script.ParseConfig "ckpts/abc123/model_config.yaml";
      Script.Instantiate;
      Script.Glob "ckpts/abc123/epoch*.ckpt";
      Script.TorchLoad "ckpts/abc123/epoch=7.ckpt";
      Script.LoadStateDict;
      Script.IsFile "ckpts/abc123/data_config.yaml";
      Script.SavePretrained "out" (Some "abc123"%string) false None],
     inr tt).
Proof. reflexivity. Qed.

End Examples.
